(** * Watchlist: a shallow embedding of [app7/app.py]

    The program is a Flask application with one admin user and a catalog of
    movies.  The development embeds

    - the two model classes ([User], [Movie]) and the SQLite tables that
      hold their rows, as finite maps from primary key to row;
    - the SQLAlchemy session ([db.session.add], [db.session.delete],
      attribute assignment on a loaded row, [db.session.commit]) as a list of
      pending changes that [commit] applies to the store;
    - the signed cookie session (the logged-in user id and the flashed
      messages);
    - the view functions [index], [edit], [delete], [login], [logout],
      [settings] and the error handler [page_not_found], statement by
      statement, in a state-and-exception monad;
    - the library code the views call: Flask-Login's [login_required],
      [login_user], [logout_user] and [current_user], and Werkzeug's
      [generate_password_hash] and [check_password_hash] around an abstract
      key-derivation function, and its pbkdf2 method written out (HMAC and
      PBKDF2 over an abstract digest);
    - the commands [initdb] and [admin] of [app7], and [forge] of
      [app5/app.py], the version of the program before login was added.

    Python strings are modelled by [string]; [len] is [String.length].
    A Python value that may be [None] is an [option]. *)

From Stdlib Require Import ZArith NArith String Ascii Bool List.
From stdpp Require Import gmap strings.

Local Open Scope string_scope.
Local Open Scope N_scope.

(** ** Python values *)

(** Truth value of a [str]-or-[None]: [None] and the empty string are falsy. *)
Definition truthy (v : option string) : bool :=
  match v with
  | None => false
  | Some s => negb (String.eqb s "")
  end.

(** [len(v)] as a number; the views only evaluate it behind a truthiness test
    of the same value (Python's [or] short-circuits), so the [None] case is
    never reached there. *)
Definition len (v : option string) : N :=
  match v with
  | None => 0
  | Some s => N.of_nat (String.length s)
  end.

(** Exceptions the modelled code can raise. *)
Inductive exn : Type :=
  | NotFound                              (* werkzeug.exceptions.NotFound, 404 *)
  | BadRequestKeyError (key : string)     (* request.form[key] on a missing key, 400 *)
  | MethodNotAllowed                      (* routing, 405 *)
  | AttributeError                        (* attribute access on None, 500 *)
  | OverflowError.                        (* an integer SQLite cannot bind, 500 *)

Inductive result (A : Type) : Type :=
  | Ok (a : A)
  | Raise (e : exn).
Arguments Ok {A} a.
Arguments Raise {A} e.

(** ** Werkzeug's password hashing *)

Definition SALT_CHARS : string :=
  "abcdefghijklmnopqrstuvwxyzABCDEFGHIJKLMNOPQRSTUVWXYZ0123456789".

Definition choice (i : nat) : ascii :=
  match String.get (i mod String.length SALT_CHARS)%nat SALT_CHARS with
  | Some c => c
  | None => "a"%char
  end.

(** [gen_salt]: one character of [SALT_CHARS] per random draw. *)
Fixpoint gen_salt (draws : list nat) : string :=
  match draws with
  | nil => EmptyString
  | i :: rest => String (choice i) (gen_salt rest)
  end.

(** [s.partition(sep)] when [sep] occurs in [s]: the text before the first
    [sep] and the text after it. *)
Fixpoint partition (sep : ascii) (s : string) : option (string * string) :=
  match s with
  | EmptyString => None
  | String c rest =>
      if Ascii.eqb c sep then Some (EmptyString, rest)
      else match partition sep rest with
           | Some (before, after) => Some (String c before, after)
           | None => None
           end
  end.

(** [method, salt, hashval = pwhash.split("$", 2)]; [None] stands for the
    [ValueError] of the unpacking when there are fewer than three parts. *)
Definition split_dollar_2 (pwhash : string) : option (string * string * string) :=
  match partition "$" pwhash with
  | Some (method, rest) =>
      match partition "$" rest with
      | Some (salt, hashval) => Some (method, salt, hashval)
      | None => None
      end
  | None => None
  end.

(** The key-derivation function ([_hash_internal], pbkdf2 or scrypt according
    to the method string) is an interface: the application never looks inside
    it.  A method string ("pbkdf2:sha256:600000", "scrypt:32768:8:1") has
    colons and no dollar sign. *)
Class PasswordHash : Type := {
  default_method : string;
  hash_internal : string -> string -> string -> string;
    (* method, salt, password -> hex digest *)
  default_method_plain : partition "$" default_method = None
}.

Section Werkzeug.
Context `{PasswordHash}.

Definition generate_password_hash (draws : list nat) (password : string) : string :=
  let salt := gen_salt draws in
  let h := hash_internal default_method salt password in
  default_method ++ "$" ++ salt ++ "$" ++ h.

(** The first thing [check_password_hash] does with [pwhash] is call a
    [str] method on it, which on [None] raises [AttributeError]. *)
Definition check_password_hash (pwhash : option string) (password : string)
  : result bool :=
  match pwhash with
  | None => Raise AttributeError
  | Some pwhash =>
      match split_dollar_2 pwhash with
      | None => Ok false
      | Some (method, salt, hashval) =>
          Ok (String.eqb (hash_internal method salt password) hashval)
      end
  end.
End Werkzeug.

(** ** The model classes *)

Record User : Type := mkUser {
  name : option string;
  username : option string;
  password_hash : option string
}.

Record Movie : Type := mkMovie {
  title : option string;
  year : option string
}.

Section Credentials.
Context `{PasswordHash}.

Definition set_password (draws : list nat) (self : User) (password : string) : User :=
  mkUser (name self) (username self)
         (Some (generate_password_hash draws password)).

Definition validate_password (self : User) (user_pwd : string) : result bool :=
  check_password_hash (password_hash self) user_pwd.
End Credentials.

(** ** The data store *)

(** The two tables, keyed by the integer primary key [id]. *)
Record DB : Type := mkDB {
  movie_table : gmap N Movie;
  user_table : gmap N User
}.

(** SQLite gives a new row of an [INTEGER PRIMARY KEY] table one more than
    the largest key in use (1 in an empty table).  Keys are unbounded here;
    SQLite's behaviour at the largest 64-bit key is not modelled. *)
Definition max_id {A : Type} (t : gmap N A) : N :=
  map_fold (fun k _ acc => N.max k acc) 0 t.

Definition next_id {A : Type} (t : gmap N A) : N := N.succ (max_id t).

(** [Model.query.get(id)]. *)
Definition Movie_query_get (db : DB) (id : N) : option Movie := movie_table db !! id.
Definition User_query_get (db : DB) (id : N) : option User := user_table db !! id.

(** [User.query.first()]: the row with the smallest key, [None] in an empty
    table. *)
Definition first_row {A : Type} (t : gmap N A) : option (N * A) :=
  map_fold (fun k v acc =>
              match acc with
              | None => Some (k, v)
              | Some (k', _) => if k <? k' then Some (k, v) else acc
              end) None t.

Definition User_query_first (db : DB) : option (N * User) := first_row (user_table db).

(** What the SQLAlchemy session holds between two commits. *)
Inductive Change : Type :=
  | add_movie (m : Movie)                       (* db.session.add(Movie(...)) *)
  | set_movie_title (id : N) (v : option string) (* movie.title = v *)
  | set_movie_year (id : N) (v : option string)  (* movie.year = v *)
  | delete_movie (id : N)                       (* db.session.delete(movie) *)
  | set_user_name (id : N) (v : option string).  (* current_user.name = v *)

Definition apply_change (db : DB) (c : Change) : DB :=
  match c with
  | add_movie m =>
      mkDB (<[next_id (movie_table db) := m]> (movie_table db)) (user_table db)
  | set_movie_title id v =>
      mkDB (alter (fun m => mkMovie v (year m)) id (movie_table db)) (user_table db)
  | set_movie_year id v =>
      mkDB (alter (fun m => mkMovie (title m) v) id (movie_table db)) (user_table db)
  | delete_movie id =>
      mkDB (delete id (movie_table db)) (user_table db)
  | set_user_name id v =>
      mkDB (movie_table db)
           (alter (fun u => mkUser v (username u) (password_hash u)) id (user_table db))
  end.

(** ** Requests, responses, and the state a request runs in *)

(** The methods the rules list.  HEAD and OPTIONS, which Flask answers on its
    own, are left out. *)
Inductive Method : Type := GET | POST.

Inductive Endpoint : Type :=
  | index_ep                   (* /                         GET, POST *)
  | edit_ep (movie_id : N)     (* /movie/edit/<int:id>      GET, POST *)
  | delete_ep (movie_id : N)   (* /movie/delete/<int:id>    POST      *)
  | login_ep                   (* /login                    GET, POST *)
  | logout_ep                  (* /logout                   GET       *)
  | settings_ep                (* /settings                 GET, POST *)
  | no_route.                  (* any other path                      *)

Record Request : Type := mkRequest {
  method : Method;
  path : Endpoint;
  form : gmap string string
}.

(** A URL built by [url_for]; Flask-Login adds [next] to the login URL. *)
Record Url : Type := mkUrl {
  endpoint : Endpoint;
  next : option Endpoint
}.

Definition url_for (ep : Endpoint) : Url := mkUrl ep None.

(** Variables handed to a template: the view's own ([movies], [movie]) and
    the [user] that [inject_user] adds to every template. *)
Record Context : Type := mkContext {
  ctx_user : option (N * User);
  ctx_movies : option (gmap N Movie);
  ctx_movie : option Movie
}.

Inductive Response : Type :=
  | redirect (location : Url)
  | page (status : N) (template : string) (ctx : Context)
  | error_response (status : N).

(** The cookie session.  The views only append to the flashed messages; the
    templates that show and clear them are not part of the model. *)
Record Session : Type := mkSession {
  user_id : option N;          (* session['_user_id'] *)
  flashes : list string        (* session['_flashes'] *)
}.

Record World : Type := mkWorld {
  store : DB;                  (* committed rows *)
  pending : list Change;       (* db.session, not yet committed *)
  session : Session
}.

(** ** The monad of view functions *)

Definition M (A : Type) : Type := World -> result A * World.

Definition ret {A : Type} (a : A) : M A := fun w => (Ok a, w).

Definition raise {A : Type} (e : exn) : M A := fun w => (Raise e, w).

Definition bind {A B : Type} (m : M A) (k : A -> M B) : M B :=
  fun w =>
    match m w with
    | (Ok a, w') => k a w'
    | (Raise e, w') => (Raise e, w')
    end.

Declare Scope view_scope.
Delimit Scope view_scope with view.
Notation "x <- m ;; k" := (bind m (fun x => k))
  (at level 100, m at next level, right associativity) : view_scope.
Notation "m ;; k" := (bind m (fun _ => k))
  (at level 100, right associativity) : view_scope.

Definition get_store : M DB := fun w => (Ok (store w), w).

Definition get_session : M Session := fun w => (Ok (session w), w).

Definition put_session (s : Session) : M unit :=
  fun w => (Ok tt, mkWorld (store w) (pending w) s).

Definition db_session_record (c : Change) : M unit :=
  fun w => (Ok tt, mkWorld (store w) (pending w ++ [c]) (session w)).

Definition db_session_add (m : Movie) : M unit := db_session_record (add_movie m).

Definition db_session_delete (movie_id : N) : M unit :=
  db_session_record (delete_movie movie_id).

Definition db_session_commit : M unit :=
  fun w => (Ok tt, mkWorld (foldl apply_change (store w) (pending w)) [] (session w)).

Definition flash (message : string) : M unit :=
  fun w => (Ok tt, mkWorld (store w) (pending w)
                           (mkSession (user_id (session w))
                                      (flashes (session w) ++ [message]))).

(** [request.form.get(key)] and [request.form[key]]. *)
Definition form_get (req : Request) (key : string) : option string := form req !! key.

Definition form_getitem (req : Request) (key : string) : M string :=
  match form req !! key with
  | Some v => ret v
  | None => raise (BadRequestKeyError key)
  end.

(** The keys of a SQLite table are 64-bit signed integers: the largest is
    one below [sqlite_int_limit]. *)
Definition sqlite_int_limit : N := 2 ^ 63.

(** [Movie.query.get_or_404(movie_id)].  The route converter [<int:movie_id>]
    accepts any run of digits.  An id that finds no row is answered with
    [NotFound] when SQLite can bind it; an id of [sqlite_int_limit] or more,
    which no table holds, makes [sqlite3] raise [OverflowError] when the
    query is sent. *)
Definition Movie_query_get_or_404 (movie_id : N) : M Movie :=
  fun w =>
    match Movie_query_get (store w) movie_id with
    | Some m => (Ok m, w)
    | None =>
        if sqlite_int_limit <=? movie_id
        then (Raise OverflowError, w)
        else (Raise NotFound, w)
    end.

Definition inject_user : M (option (N * User)) :=
  fun w => (Ok (User_query_first (store w)), w).

Definition render_template (template : string)
    (movies : option (gmap N Movie)) (movie : option Movie) : M Response :=
  (user <- inject_user ;;
   ret (page 200 template (mkContext user movies movie)))%view.

(** ** Flask-Login *)

(** [load_user], the [user_loader] callback. *)
Definition load_user (id : N) : M (option (N * User)) :=
  fun w =>
    match User_query_get (store w) id with
    | Some u => (Ok (Some (id, u)), w)
    | None => (Ok None, w)
    end.

(** [current_user]: the row of the id kept in the session, or the anonymous
    user ([None]) when the session has no id or the row is gone. *)
Definition current_user : M (option (N * User)) :=
  (s <- get_session ;;
   match user_id s with
   | None => ret None
   | Some id => load_user id
   end)%view.

Definition is_authenticated (u : option (N * User)) : bool :=
  match u with Some _ => true | None => false end.

Definition login_user (user : N * User) : M unit :=
  (s <- get_session ;;
   put_session (mkSession (Some (fst user)) (flashes s)))%view.

Definition logout_user : M unit :=
  (s <- get_session ;;
   put_session (mkSession None (flashes s)))%view.

(** [login_manager.login_view = 'login'] *)
Definition login_view : Endpoint := login_ep.

Definition login_message : string := "Please log in to access this page.".

(** [LoginManager.unauthorized] with a login view configured. *)
Definition unauthorized (req : Request) : M Response :=
  (flash login_message ;;
   ret (redirect (mkUrl login_view (Some (path req)))))%view.

Definition login_required (view : Request -> M Response) (req : Request) : M Response :=
  (user <- current_user ;;
   if negb (is_authenticated user) then unauthorized req
   else view req)%view.

(** ** The view functions *)

(** [user.username] of a row that a query returned. *)
Definition row_username (user : N * User) : option string := username (snd user).

(** A Python exception raised by a pure call propagates in the view. *)
Definition lift {A : Type} (r : result A) : M A := fun w => (r, w).

Definition index (req : Request) : M Response :=
  match method req with
  | POST =>
      (user <- current_user ;;
       if negb (is_authenticated user) then
         ret (redirect (url_for index_ep))
       else
         let title := form_get req "title" in
         let year := form_get req "year" in
         if negb (truthy title) || negb (truthy year)
            || (4 <? len year) || (60 <? len title) then
           (flash "Invalid input." ;;
            ret (redirect (url_for index_ep)))
         else
           (db_session_add (mkMovie title year) ;;
            db_session_commit ;;
            flash "Item created." ;;
            ret (redirect (url_for index_ep))))%view
  | GET =>
      (db <- get_store ;;
       render_template "index.html" (Some (movie_table db)) None)%view
  end.

Definition edit (movie_id : N) (req : Request) : M Response :=
  (movie <- Movie_query_get_or_404 movie_id ;;
   match method req with
   | POST =>
       (title <- form_getitem req "title" ;;
        year <- form_getitem req "year" ;;
        if negb (truthy (Some title)) || negb (truthy (Some year))
           || (4 <? len (Some year)) || (60 <? len (Some title)) then
          (flash "Invalid input" ;;
           ret (redirect (url_for (edit_ep movie_id))))
        else
          (db_session_record (set_movie_title movie_id (Some title)) ;;
           db_session_record (set_movie_year movie_id (Some year)) ;;
           db_session_commit ;;
           flash "Item update." ;;
           ret (redirect (url_for index_ep))))
   | GET => render_template "edit.html" None (Some movie)
   end)%view.

Definition delete (movie_id : N) (req : Request) : M Response :=
  (movie <- Movie_query_get_or_404 movie_id ;;
   db_session_delete movie_id ;;
   db_session_commit ;;
   flash "Item deleted." ;;
   ret (redirect (url_for index_ep)))%view.

Definition logout (req : Request) : M Response :=
  (logout_user ;;
   flash "Goodbye" ;;
   ret (redirect (url_for index_ep)))%view.

Definition settings (req : Request) : M Response :=
  match method req with
  | POST =>
      (name <- form_getitem req "name" ;;
       if negb (truthy (Some name)) || (20 <? len (Some name)) then
         (flash "Invalid input." ;;
          ret (redirect (url_for settings_ep)))
       else
         (user <- current_user ;;
          match user with
          | Some (id, _) => db_session_record (set_user_name id (Some name))
          | None => ret tt     (* an attribute of the anonymous user object *)
          end ;;
          db_session_commit ;;
          flash "Settings updated." ;;
          ret (redirect (url_for index_ep))))%view
  | GET => render_template "settings.html" None None
  end.

Definition page_not_found : M Response :=
  (user <- inject_user ;;
   ret (page 404 "404.html" (mkContext user None None)))%view.

Section Views.
Context `{PasswordHash}.

Definition login (req : Request) : M Response :=
  match method req with
  | POST =>
      (username <- form_getitem req "username" ;;
       password <- form_getitem req "password" ;;
       if negb (truthy (Some username)) || negb (truthy (Some password)) then
         (flash "Invalid input." ;;
          ret (redirect (url_for login_ep)))
       else
         (db <- get_store ;;
          let user := User_query_first db in
          match user with
          | None => raise AttributeError        (* user.username on None *)
          | Some user =>
              valid <- (if bool_decide (Some username = row_username user)
                        then lift (validate_password (snd user) password)
                        else ret false) ;;
              if valid then
                (login_user user ;;
                 flash "Login success." ;;
                 ret (redirect (url_for index_ep)))
              else
                (flash "Invalid username or password." ;;
                 ret (redirect (url_for login_ep)))
          end))%view
  | GET => render_template "login.html" None None
  end.

(** ** Routing and the request cycle *)

(** The URL map: the view of each rule with its decorators, and
    [MethodNotAllowed] for a method the rule does not list. *)
Definition dispatch_request (req : Request) : M Response :=
  match path req, method req with
  | index_ep, _ => index req
  | edit_ep movie_id, _ => login_required (edit movie_id) req
  | delete_ep movie_id, POST => login_required (delete movie_id) req
  | delete_ep _, GET => raise MethodNotAllowed
  | login_ep, _ => login req
  | logout_ep, GET => login_required logout req
  | logout_ep, POST => raise MethodNotAllowed
  | settings_ep, _ => login_required settings req
  | no_route, _ => raise NotFound
  end.

(** [errorhandler(404)] is the only registered handler; the other
    exceptions get Flask's default response for their status. *)
Definition handle_exception (e : exn) : M Response :=
  match e with
  | NotFound => page_not_found
  | BadRequestKeyError _ => ret (error_response 400)
  | MethodNotAllowed => ret (error_response 405)
  | AttributeError => ret (error_response 500)
  | OverflowError => ret (error_response 500)
  end.

(** One request: dispatch, turn an exception into its response, and drop
    whatever the SQLAlchemy session still holds uncommitted. *)
Definition handle_request (req : Request) (db : DB) (s : Session)
  : Response * DB * Session :=
  let w := mkWorld db [] s in
  let (r, w1) := dispatch_request req w in
  let (r2, w2) := match r with
                  | Ok resp => (Ok resp, w1)
                  | Raise e => handle_exception e w1
                  end in
  match r2 with
  | Ok resp => (resp, store w2, session w2)
  | Raise _ => (error_response 500, store w2, session w2)
  end.
End Views.

(** ** Vocabulary of the specification *)

(** The two states of the guard: the session either names a row of the user
    table (Authenticated) or it does not (Anonymous). *)
Definition session_user (db : DB) (s : Session) : option (N * User) :=
  match user_id s with
  | Some id =>
      match User_query_get db id with
      | Some u => Some (id, u)
      | None => None
      end
  | None => None
  end.

Definition Anonymous (db : DB) (s : Session) : Prop := session_user db s = None.

Definition Authenticated (db : DB) (s : Session) : Prop :=
  exists row, session_user db s = Some row.

(** A field that passes the length/required check of the forms. *)
Definition valid_field (limit : nat) (v : string) : Prop :=
  v <> "" /\ (String.length v <= limit)%nat.

(** A submitted field that does not: empty, or longer than the limit. *)
Definition invalid_field (limit : nat) (v : string) : Prop :=
  v = "" \/ (limit < String.length v)%nat.

(** The session after one more flashed message. *)
Definition flashed (s : Session) (message : string) : Session :=
  mkSession (user_id s) (flashes s ++ [message]).


(** The requests of the catalog and settings operations. *)
Definition create_request (req : Request) (title year : option string) : Prop :=
  method req = POST /\ path req = index_ep /\
  form req !! "title" = title /\ form req !! "year" = year.

Definition update_request (req : Request) (movie_id : N) (title year : string) : Prop :=
  method req = POST /\ path req = edit_ep movie_id /\
  form req !! "title" = Some title /\ form req !! "year" = Some year.

Definition delete_request (req : Request) (movie_id : N) : Prop :=
  method req = POST /\ path req = delete_ep movie_id.

Definition settings_request (req : Request) (new_name : string) : Prop :=
  method req = POST /\ path req = settings_ep /\ form req !! "name" = Some new_name.

Definition login_request (req : Request) (username password : string) : Prop :=
  method req = POST /\ path req = login_ep /\
  form req !! "username" = Some username /\ form req !! "password" = Some password.

(** The test of [index] and [edit] on the two fields of the movie form. *)
Definition movie_form_check (title year : option string) : bool :=
  negb (truthy title) || negb (truthy year) || (4 <? len year) || (60 <? len title).

(** A field of the submitted form that the test refuses: missing, empty or
    longer than the limit. *)
Definition refused (limit : nat) (v : option string) : Prop :=
  match v with
  | None => True
  | Some s => invalid_field limit s
  end.

(** The salted hash tells two plaintexts apart. *)
Definition collision_free `{PasswordHash} (salt : string) : Prop :=
  forall p q : string,
    hash_internal default_method salt p = hash_internal default_method salt q -> p = q.

(** A stand-in key-derivation function for running the model on concrete
    inputs: the digest is the salt followed by the plaintext. *)
Definition demo_hash : PasswordHash :=
  {| default_method := "pbkdf2:sha256";
     hash_internal := fun _ salt password => salt ++ ":" ++ password;
     default_method_plain := eq_refl |}.

Definition demo_admin : User :=
  @set_password demo_hash [3; 70; 5]%nat (mkUser (Some "alice") (Some "alice") None) "secret".

Definition demo_db : DB :=
  mkDB {[ 1 := mkMovie (Some "Leon") (Some "1994");
          5 := mkMovie (Some "Mahjong") (Some "1996") ]}
       {[ 1 := demo_admin ]}.

Definition demo_anonymous : Session := mkSession None [].

Definition demo_logged_in : Session := mkSession (Some 1) [].

(** The response Flask gives for an exception that leaves a view. *)
Definition error_page (db : DB) (e : exn) : Response :=
  match e with
  | NotFound => page 404 "404.html" (mkContext (User_query_first db) None None)
  | BadRequestKeyError _ => error_response 400
  | MethodNotAllowed => error_response 405
  | AttributeError => error_response 500
  | OverflowError => error_response 500
  end.

(** The outcome of a login submission. *)
Definition login_outcome `{PasswordHash} (db : DB) (s : Session)
    (submitted password : string)
  : Response * DB * Session :=
  if negb (truthy (Some submitted)) || negb (truthy (Some password)) then
    (redirect (url_for login_ep), db, flashed s "Invalid input.")
  else
    match User_query_first db with
    | None => (error_response 500, db, s)
    | Some (id, u) =>
        match (if bool_decide (Some submitted = username u)
               then validate_password u password else Ok false) with
        | Ok true =>
            (redirect (url_for index_ep), db,
             mkSession (Some id) (flashes s ++ ["Login success."]))
        | Ok false =>
            (redirect (url_for login_ep), db,
             flashed s "Invalid username or password.")
        | Raise e => (error_page db e, db, s)
        end
    end.

(** Requests for running the model. *)
Definition demo_create : Request :=
  mkRequest POST index_ep {[ "title" := "Inception"; "year" := "2010" ]}.

Definition demo_create_untitled : Request :=
  mkRequest POST index_ep {[ "title" := ""; "year" := "2010" ]}.

Definition demo_update : Request :=
  mkRequest POST (edit_ep 5) {[ "title" := "New Title"; "year" := "1999" ]}.

Definition demo_delete : Request := mkRequest POST (delete_ep 5) ∅.

Definition demo_delete_missing : Request := mkRequest POST (delete_ep 7) ∅.

(** A delete of the id 2^63, one more than the largest key of SQLite. *)
Definition demo_delete_huge : Request :=
  mkRequest POST (delete_ep 9223372036854775808) ∅.

Definition demo_settings : Request :=
  mkRequest POST settings_ep {[ "name" := "Alice L." ]}.

Definition demo_login (username password : string) : Request :=
  mkRequest POST login_ep {[ "username" := username; "password" := password ]}.

(** ** The command line of [app7] *)

(** [initdb]: [db.drop_all()] empties both tables; [db.create_all()] creates
    the tables that are missing and keeps the rows of those that exist.  The
    second component is what [click.echo] prints. *)
Definition initdb (drop : bool) (db : DB) : DB * list string :=
  let db := if drop then mkDB ∅ ∅ else db in
  (db, ["Initialized database."]).

(** Assignment to one attribute of a user row. *)
Definition with_username (user : User) (v : option string) : User :=
  mkUser (name user) v (password_hash user).

Definition with_name (user : User) (v : option string) : User :=
  mkUser v (username user) (password_hash user).

(** [admin]: update the first user row, or create one when the table is
    empty, then commit.  [draws] are the random choices of the salt. *)
Definition admin `{PasswordHash} (draws : list nat) (username password : string)
    (db : DB) : DB * list string :=
  match User_query_first db with
  | Some (id, user) =>
      let user := with_username user (Some username) in
      let user := with_name user (Some username) in
      let user := set_password draws user password in
      (mkDB (movie_table db) (<[id := user]> (user_table db)),
       ["Updating user..."; "Done."])
  | None =>
      let user := mkUser (Some username) (Some username) None in
      let user := set_password draws user password in
      (mkDB (movie_table db) (<[next_id (user_table db) := user]> (user_table db)),
       ["Creating user..."; "Done."])
  end.

(** ** [app5]: the version before login *)

Module App5.

Record User : Type := mkUser { name : option string }.

Record DB : Type := mkDB {
  movie_table : gmap N Movie;
  user_table : gmap N User
}.

Inductive Change : Type :=
  | add_user (u : User)
  | add_movie (m : Movie).

Definition apply_change (db : DB) (c : Change) : DB :=
  match c with
  | add_user u =>
      mkDB (movie_table db) (<[next_id (user_table db) := u]> (user_table db))
  | add_movie m =>
      mkDB (<[next_id (movie_table db) := m]> (movie_table db)) (user_table db)
  end.

(** The list [movies] of [forge]: the title and the year of each entry. *)
Definition movies : list (string * string) :=
  [ ("Dead Poets Society", "1989");
    ("My Neighbor Totoro", "1988");
    ("A Perfect World", "1993");
    ("Leon", "1994");
    ("Mahjong", "1996");
    ("Swallowtail Butterfly", "1996");
    ("King of Comedy", "1999");
    ("Devils on the Doorstep", "1999");
    ("WALL-E", "2008");
    ("The Pork of Music", "2012") ].

(** [forge]: one [db.session.add] for the user and one per movie, then a
    single commit. *)
Definition forge (db : DB) : DB * list string :=
  let name := "Grey Li" in
  let user := mkUser (Some name) in
  let pending :=
    add_user user
    :: map (fun m => add_movie (mkMovie (Some (fst m)) (Some (snd m)))) movies in
  (foldl apply_change db pending, ["Done."]).

End App5.

(** ** The key derivation behind [_hash_internal]: PBKDF2 over HMAC *)

(** Werkzeug's pbkdf2 method calls [hashlib.pbkdf2_hmac] on the encoded
    password and salt.  The digest ([sha256]) is a parameter [H] with block
    size [B]; everything around it is written out, byte strings being
    strings of 8-bit characters. *)

Definition NUL : ascii := "000"%char.

Definition xor_ascii (a b : ascii) : ascii :=
  match a, b with
  | Ascii a0 a1 a2 a3 a4 a5 a6 a7, Ascii b0 b1 b2 b3 b4 b5 b6 b7 =>
      Ascii (xorb a0 b0) (xorb a1 b1) (xorb a2 b2) (xorb a3 b3)
            (xorb a4 b4) (xorb a5 b5) (xorb a6 b6) (xorb a7 b7)
  end.

(** Every byte of [s] xor-ed with [c]. *)
Fixpoint xor_with (c : ascii) (s : string) : string :=
  match s with
  | EmptyString => EmptyString
  | String x rest => String (xor_ascii x c) (xor_with c rest)
  end.

(** Two byte strings xor-ed byte by byte. *)
Fixpoint xor_strings (a b : string) : string :=
  match a, b with
  | String x a', String y b' => String (xor_ascii x y) (xor_strings a' b')
  | _, _ => EmptyString
  end.

Fixpoint zeros (n : nat) : string :=
  match n with
  | O => EmptyString
  | S n' => String NUL (zeros n')
  end.

(** [str.encode()]: UTF-8 of a code point below 256. *)
Definition encode_char (c : ascii) : string :=
  let n := N_of_ascii c in
  if n <? 128 then String c EmptyString
  else String (ascii_of_N (192 + n / 64))
              (String (ascii_of_N (128 + n mod 64)) EmptyString).

Fixpoint encode (s : string) : string :=
  match s with
  | EmptyString => EmptyString
  | String c rest => encode_char c ++ encode rest
  end.

(** [bytes.hex()]. *)
Definition hex_digit (n : N) : ascii :=
  match String.get (N.to_nat n) "0123456789abcdef" with
  | Some c => c
  | None => "0"%char
  end.

Fixpoint hex (s : string) : string :=
  match s with
  | EmptyString => EmptyString
  | String c rest =>
      String (hex_digit (N_of_ascii c / 16))
             (String (hex_digit (N_of_ascii c mod 16)) (hex rest))
  end.

Section Pbkdf2.
Variable H : string -> string.
Variable B : nat.

(** The key HMAC works with: a key longer than a block is replaced by its
    digest, and the key is then filled up to the block size with zero
    bytes. *)
Definition hmac_key (key : string) : string :=
  let key := if (B <? String.length key)%nat then H key else key in
  key ++ zeros (B - String.length key).

Definition hmac (key msg : string) : string :=
  let k := hmac_key key in
  H (xor_with "092"%char k ++ H (xor_with "054"%char k ++ msg)).

(** [U_2 ... U_c] of PBKDF2, xor-ed into [acc]. *)
Fixpoint pbkdf2_rounds (password u acc : string) (n : nat) : string :=
  match n with
  | O => acc
  | S n' =>
      let u' := hmac password u in
      pbkdf2_rounds password u' (xor_strings acc u') n'
  end.

(** [hashlib.pbkdf2_hmac] with the default length of the derived key, one
    digest: the block [T_1].  ([iterations] is at least 1 for every method
    string; hashlib refuses 0.) *)
Definition pbkdf2_hmac (password salt : string) (iterations : nat) : string :=
  match iterations with
  | O => EmptyString
  | S n =>
      let u1 := hmac password
                  (salt ++ String NUL (String NUL (String NUL (String "001"%char ""))))
      in
      pbkdf2_rounds password u1 u1 n
  end.
End Pbkdf2.

(** The pbkdf2 method as a [PasswordHash]: the digest and the iteration
    count, which the method string names, are the parameters. *)
Definition pbkdf2_hash (H : string -> string) (B : nat) (iterations : N)
  : PasswordHash :=
  {| default_method := "pbkdf2:sha256:600000";
     hash_internal := fun _ salt password =>
       hex (pbkdf2_hmac H B (encode password) (encode salt) (N.to_nat iterations));
     default_method_plain := eq_refl |}.

(** A plaintext followed by one NUL character. *)
Definition with_nul (p : string) : string := p ++ String NUL EmptyString.

(** SHA-256 itself is not written out.  For running the model a digest that
    returns its input stands in; the properties below that matter are proved
    for every digest. *)
Definition stand_in_digest (s : string) : string := s.

Definition demo_pbkdf2 : PasswordHash := pbkdf2_hash stand_in_digest 64 600000.

(** ** Vocabulary for the properties of whole requests *)


(** The rules whose view can write to the store. *)
Definition writes_store (ep : Endpoint) : Prop :=
  match ep with
  | index_ep | edit_ep _ | delete_ep _ | settings_ep => True
  | _ => False
  end.

(** The part of a user row that logging in depends on. *)
Definition credentials (u : User) : option string * option string :=
  (username u, password_hash u).

(** The table after a run of inserts, each under the next free key. *)
Definition add_rows {A : Type} (t : gmap N A) (rows : list A) : gmap N A :=
  foldl (fun t row => <[next_id t := row]> t) t rows.

(** The row that [forge] makes of an entry of its list. *)
Definition app5_fixture (m : string * string) : Movie :=
  mkMovie (Some (fst m)) (Some (snd m)).

(** A store of [app5] for running [forge]. *)
Definition demo5_db : App5.DB :=
  App5.mkDB {[ 3 := mkMovie (Some "Heat") (Some "1995") ]}
            {[ 1 := App5.mkUser (Some "Someone") ]}.

(** A store with a second user row and no movie. *)
Definition demo_two_users : DB :=
  mkDB ∅ {[ 1 := demo_admin; 2 := mkUser (Some "Bob") (Some "bob") None ]}.

(** * Properties *)

(** ** Primary keys *)

Section Keys.
Context {A : Type}.
Implicit Types (t : gmap N A) (k : N) (v : A).

Lemma max_id_upper_bound t k v : t !! k = Some v -> k <= max_id t.
Proof.
  unfold max_id. revert k v.
  apply (map_fold_weak_ind
           (fun acc t => forall k v, t !! k = Some v -> k <= acc)).
  - intros k v Hk. by rewrite lookup_empty in Hk.
  - intros i x m r _ IH k v Hk.
    destruct (decide (i = k)) as [->|Hne].
    + lia.
    + rewrite lookup_insert_ne in Hk by done.
      specialize (IH k v Hk). lia.
Qed.

Lemma next_id_fresh t : t !! next_id t = None.
Proof.
  destruct (t !! next_id t) as [v|] eqn:Hk; [|done].
  apply max_id_upper_bound in Hk. unfold next_id in Hk. lia.
Qed.

Lemma first_row_lookup t k v : first_row t = Some (k, v) -> t !! k = Some v.
Proof.
  unfold first_row. revert k v.
  apply (map_fold_weak_ind
           (fun acc t => forall k v, acc = Some (k, v) -> t !! k = Some v)).
  - discriminate.
  - intros i x m r Hfresh IH k v Hacc.
    destruct r as [[k' v']|].
    + destruct (i <? k') eqn:Hlt.
      * injection Hacc as <- <-. apply lookup_insert_eq.
      * injection Hacc as <- <-.
        rewrite lookup_insert_ne; [by apply IH|].
        intros ->. specialize (IH k' v' eq_refl). congruence.
    + injection Hacc as <- <-. apply lookup_insert_eq.
Qed.

Lemma first_row_spec t :
  match first_row t with
  | None => t = ∅
  | Some (k, _) => forall k' v', t !! k' = Some v' -> k <= k'
  end.
Proof.
  unfold first_row.
  apply (map_fold_weak_ind
           (fun acc t =>
              match acc with
              | None => t = ∅
              | Some (k, _) => forall k' v', t !! k' = Some v' -> k <= k'
              end)); [done|].
  intros i x m r _ IH.
  destruct r as [[k0 v0]|].
  - destruct (i <? k0) eqn:Hlt; intros k' v' Hk;
      (destruct (decide (i = k')) as [->|Hne];
       [|rewrite lookup_insert_ne in Hk by done; specialize (IH k' v' Hk)]).
    + lia.
    + apply N.ltb_lt in Hlt. lia.
    + by apply N.ltb_ge in Hlt.
    + done.
  - subst m. intros k' v' Hk.
    destruct (decide (i = k')) as [->|Hne]; [lia|].
    rewrite lookup_insert_ne, lookup_empty in Hk by done. done.
Qed.

Lemma first_row_least t k v k' v' :
  first_row t = Some (k, v) -> t !! k' = Some v' -> k <= k'.
Proof.
  intros Hfirst. pose proof (first_row_spec t) as Hspec.
  rewrite Hfirst in Hspec. apply Hspec.
Qed.

Lemma first_row_None t : first_row t = None <-> t = ∅.
Proof.
  split.
  - intros Hfirst. pose proof (first_row_spec t) as Hspec.
    by rewrite Hfirst in Hspec.
  - intros ->. unfold first_row. apply map_fold_empty.
Qed.
End Keys.

(** ** Credential service *)

Lemma partition_append (sep : ascii) (a b : string) :
  partition sep a = None -> partition sep (a ++ String sep b) = Some (a, b).
Proof.
  induction a as [|c a IH]; simpl.
  - intros _. by rewrite Ascii.eqb_refl.
  - destruct (Ascii.eqb c sep); [discriminate|].
    destruct (partition sep a) as [[before after]|]; [discriminate|].
    intros _. by rewrite IH.
Qed.

Lemma dollar_append (s : string) : "$" ++ s = String "$" s.
Proof. reflexivity. Qed.

Lemma choice_not_dollar (i : nat) : Ascii.eqb (choice i) "$" = false.
Proof.
  assert (Hall : forallb (fun j => negb (Ascii.eqb (choice j) "$"))
                         (seq 0 (String.length SALT_CHARS)) = true)
    by (vm_compute; reflexivity).
  rewrite forallb_forall in Hall.
  assert (Hmod : choice i = choice (i mod String.length SALT_CHARS)).
  { unfold choice. by rewrite Nat.Div0.mod_mod. }
  rewrite Hmod. apply negb_true_iff, Hall, in_seq.
  split; [lia|]. rewrite Nat.add_0_l. apply Nat.mod_upper_bound.
  vm_compute. discriminate.
Qed.

Lemma gen_salt_plain (draws : list nat) : partition "$" (gen_salt draws) = None.
Proof.
  induction draws as [|i draws IH]; simpl; [done|].
  by rewrite choice_not_dollar, IH.
Qed.

Lemma demo_hash_collision_free (salt : string) : @collision_free demo_hash salt.
Proof.
  intros p q. simpl. induction salt as [|c salt IH]; simpl.
  - intros Heq. simpl in Heq. by injection Heq.
  - intros [= Heq]. by apply IH.
Qed.

Section CredentialService.
Context `{PasswordHash}.

Lemma split_generate_password_hash (draws : list nat) (password : string) :
  split_dollar_2 (generate_password_hash draws password)
  = Some (default_method, gen_salt draws,
          hash_internal default_method (gen_salt draws) password).
Proof.
  unfold split_dollar_2, generate_password_hash.
  cbv zeta. rewrite !dollar_append.
  rewrite (partition_append "$" default_method _ default_method_plain).
  by rewrite (partition_append "$" (gen_salt draws) _ (gen_salt_plain draws)).
Qed.

(** What [validate_password] computes on a stored hash: the digest of the
    candidate under the stored salt, compared with the stored digest. *)
Lemma validate_password_set_password (u : User) (draws : list nat) (p q : string) :
  validate_password (set_password draws u p) q
  = Ok (String.eqb (hash_internal default_method (gen_salt draws) q)
                   (hash_internal default_method (gen_salt draws) p)).
Proof.
  unfold validate_password, set_password, check_password_hash. simpl.
  by rewrite split_generate_password_hash.
Qed.

Lemma validate_password_decides (u : User) (draws : list nat) (p q : string) :
  collision_free (gen_salt draws) ->
  validate_password (set_password draws u p) q = Ok (bool_decide (q = p)).
Proof.
  intros Hfree. rewrite validate_password_set_password. f_equal.
  destruct (String.eqb_spec (hash_internal default_method (gen_salt draws) q)
                            (hash_internal default_method (gen_salt draws) p))
    as [Heq|Hne].
  - apply Hfree in Heq. by rewrite bool_decide_eq_true_2.
  - rewrite bool_decide_eq_false_2; [done|]. intros ->. by apply Hne.
Qed.

(** C4.  [validate_password] on a user whose [password_hash] is [None] does
    not return [False]: [check_password_hash(None, ...)] raises
    [AttributeError], for every candidate plaintext. *)
Theorem validate_password_without_hash
    (name username : option string) (user_pwd : string) :
  validate_password (mkUser name username None) user_pwd = Raise AttributeError.
Proof. reflexivity. Qed.

(** C5 (as amended).  After [set_password(p2)], whatever was set before,
    [validate_password(p2)] returns [True], and for every [q]
    [validate_password(q)] returns [True] exactly when [q] has the digest of
    [p2] under the stored salt and method, and [False] exactly when it has
    not.  An earlier password [p1] is accepted only if its digest under the
    new salt is that of [p2]. *)
Theorem validate_password_compares_digests
    (u : User) (draws1 draws2 : list nat) (p1 p2 q : string) :
  let u1 := set_password draws1 u p1 in
  let u2 := set_password draws2 u1 p2 in
  let digest_of x := hash_internal default_method (gen_salt draws2) x in
  validate_password u2 p2 = Ok true /\
  (validate_password u2 q = Ok true <-> digest_of q = digest_of p2) /\
  (validate_password u2 q = Ok false <-> digest_of q <> digest_of p2).
Proof.
  cbv zeta. rewrite !validate_password_set_password.
  split; [by rewrite String.eqb_refl|].
  destruct (String.eqb_spec (hash_internal default_method (gen_salt draws2) q)
                            (hash_internal default_method (gen_salt draws2) p2))
    as [Heq|Hne].
  - split; split; first [done | intros Hne; by destruct Hne].
  - split; split; first [done | by intros [= ?]].
Qed.

(** Under a salt for which the key-derivation function has no collision,
    the digests are equal only for equal plaintexts, and the test is then
    one of the plaintexts themselves. *)
Theorem validate_password_iff_latest
    (u : User) (draws1 draws2 : list nat) (p1 p2 q : string) :
  collision_free (gen_salt draws1) ->
  collision_free (gen_salt draws2) ->
  let u1 := set_password draws1 u p1 in
  let u2 := set_password draws2 u1 p2 in
  validate_password u1 q = Ok (bool_decide (q = p1)) /\
  validate_password u2 q = Ok (bool_decide (q = p2)) /\
  (p2 <> p1 -> validate_password u2 p1 = Ok false).
Proof.
  intros Hfree1 Hfree2 u1 u2. split; [|split].
  - by apply validate_password_decides.
  - by apply validate_password_decides.
  - intros Hne. unfold u2. rewrite validate_password_decides by done.
    f_equal. apply bool_decide_eq_false_2. congruence.
Qed.
End CredentialService.

Lemma validate_password_iff_latest_witness :
  @validate_password demo_hash demo_admin "secret" = Ok true /\
  @validate_password demo_hash
     (@set_password demo_hash [9; 9]%nat demo_admin "hunter2") "secret" = Ok false.
Proof.
  pose proof (@validate_password_iff_latest demo_hash
                (mkUser (Some "alice") (Some "alice") None)
                [3; 70; 5]%nat [9; 9]%nat "secret" "hunter2" "secret"
                (demo_hash_collision_free _) (demo_hash_collision_free _))
    as (Hfirst & _ & Hlatest).
  split.
  - exact Hfirst.
  - apply Hlatest. discriminate.
Defined.

(** ** HMAC keys and trailing NUL characters *)

Lemma append_cons (c : ascii) (a b : string) : String c a ++ b = String c (a ++ b).
Proof. reflexivity. Qed.

Lemma append_assoc (a b c : string) : (a ++ b) ++ c = a ++ b ++ c.
Proof.
  induction a as [|x a IH]; [reflexivity|]. by rewrite !append_cons, IH.
Qed.

Lemma encode_with_nul (p : string) : encode (with_nul p) = with_nul (encode p).
Proof.
  unfold with_nul. induction p as [|c p IH]; [reflexivity|].
  rewrite append_cons.
  change (encode (String c (p ++ String NUL "")))
    with (encode_char c ++ encode (p ++ String NUL "")).
  rewrite IH. change (encode (String c p)) with (encode_char c ++ encode p).
  by rewrite append_assoc.
Qed.

Lemma with_nul_length (k : string) :
  String.length (with_nul k) = S (String.length k).
Proof.
  unfold with_nul. induction k as [|c k IH]; [reflexivity|].
  rewrite append_cons. cbn [String.length]. by rewrite IH.
Qed.

Lemma with_nul_zeros (k : string) (n : nat) :
  with_nul k ++ zeros n = k ++ zeros (S n).
Proof.
  unfold with_nul. rewrite append_assoc. reflexivity.
Qed.

Section Pbkdf2Facts.
Variable H : string -> string.
Variable B : nat.

(** A key shorter than a block and the same key followed by a NUL byte are
    the same key to HMAC: the padding supplies the zero byte anyway. *)
Lemma hmac_key_with_nul (k : string) :
  (String.length k < B)%nat -> hmac_key H B (with_nul k) = hmac_key H B k.
Proof.
  intros Hshort. unfold hmac_key. cbv zeta.
  assert (Hfits : (B <? S (String.length k))%nat = false)
    by (apply Nat.ltb_ge; lia).
  assert (Hfits' : (B <? String.length k)%nat = false)
    by (apply Nat.ltb_ge; lia).
  rewrite !with_nul_length, Hfits, Hfits', with_nul_length, with_nul_zeros.
  replace (S (B - S (String.length k)))%nat with (B - String.length k)%nat by lia.
  reflexivity.
Qed.

Lemma hmac_with_nul (k msg : string) :
  (String.length k < B)%nat -> hmac H B (with_nul k) msg = hmac H B k msg.
Proof. intros Hshort. unfold hmac. by rewrite hmac_key_with_nul. Qed.

Lemma pbkdf2_rounds_with_nul (k : string) (n : nat) : forall u acc,
  (String.length k < B)%nat ->
  pbkdf2_rounds H B (with_nul k) u acc n = pbkdf2_rounds H B k u acc n.
Proof.
  induction n as [|n IH]; intros u acc Hshort; [reflexivity|].
  cbn [pbkdf2_rounds]. rewrite hmac_with_nul by done. by apply IH.
Qed.

Lemma pbkdf2_hmac_with_nul (k salt : string) (iterations : nat) :
  (String.length k < B)%nat ->
  pbkdf2_hmac H B (with_nul k) salt iterations = pbkdf2_hmac H B k salt iterations.
Proof.
  intros Hshort. destruct iterations as [|n]; [reflexivity|].
  cbn [pbkdf2_hmac]. rewrite hmac_with_nul by done.
  by apply pbkdf2_rounds_with_nul.
Qed.

(** Whatever the digest and the iteration count, the pbkdf2 method gives a
    password of fewer than [B] bytes and the same password followed by a NUL
    character the same hash. *)
Lemma pbkdf2_hash_with_nul (iterations : N) (method salt p : string) :
  (String.length (encode p) < B)%nat ->
  @hash_internal (pbkdf2_hash H B iterations) method salt (with_nul p)
  = @hash_internal (pbkdf2_hash H B iterations) method salt p.
Proof.
  intros Hshort. cbn [hash_internal pbkdf2_hash].
  by rewrite encode_with_nul, pbkdf2_hmac_with_nul.
Qed.

(** So whatever the digest, a password set with [set_password] is not the
    only text [validate_password] accepts. *)
Lemma validate_password_with_nul (iterations : N) (u : User) (draws : list nat)
    (p : string) :
  (String.length (encode p) < B)%nat ->
  @validate_password (pbkdf2_hash H B iterations)
     (@set_password (pbkdf2_hash H B iterations) draws u p) (with_nul p)
  = Ok true.
Proof.
  intros Hshort. rewrite validate_password_set_password.
  rewrite pbkdf2_hash_with_nul by done. by rewrite String.eqb_refl.
Qed.
End Pbkdf2Facts.

(** After [set_password("secret")], [validate_password] accepts "secret"
    followed by a NUL character, a different text. *)
Lemma validate_password_accepts_trailing_nul :
  with_nul "secret" <> "secret" /\
  @validate_password demo_pbkdf2
     (@set_password demo_pbkdf2 [3; 70; 5]%nat
        (mkUser (Some "alice") (Some "alice") None) "secret")
     (with_nul "secret")
  = Ok true.
Proof.
  split.
  - intros Heq. apply (f_equal String.length) in Heq.
    rewrite with_nul_length in Heq. cbn in Heq. lia.
  - apply validate_password_with_nul. apply Nat.ltb_lt. reflexivity.
Qed.

(** ** Guard *)

Lemma current_user_run (w : World) :
  current_user w = (Ok (session_user (store w) (session w)), w).
Proof.
  unfold current_user, session_user, bind, get_session, load_user, ret.
  destruct (user_id (session w)) as [id|]; [|done].
  by destruct (User_query_get (store w) id).
Qed.

Lemma login_required_anonymous (view : Request -> M Response) (req : Request) (w : World) :
  session_user (store w) (session w) = None ->
  login_required view req w = unauthorized req w.
Proof.
  intros Hanon. unfold login_required, bind.
  by rewrite current_user_run, Hanon.
Qed.

Lemma login_required_authenticated (view : Request -> M Response) (req : Request)
    (w : World) (row : N * User) :
  session_user (store w) (session w) = Some row ->
  login_required view req w = view req w.
Proof.
  intros Hauth. unfold login_required, bind.
  by rewrite current_user_run, Hauth.
Qed.

(** ** Form validation *)

Lemma field_accepted (limit : nat) (v : string) :
  valid_field limit v ->
  negb (truthy (Some v)) = false /\ (N.of_nat limit <? len (Some v)) = false.
Proof.
  intros [Hne Hlen]. split.
  - simpl. by destruct (String.eqb_spec v "").
  - apply N.ltb_ge. simpl. lia.
Qed.

Lemma field_rejected (limit : nat) (v : string) :
  invalid_field limit v ->
  negb (truthy (Some v)) = true \/ (N.of_nat limit <? len (Some v)) = true.
Proof.
  intros [->|Hlen]; [by left|].
  right. apply N.ltb_lt. simpl. lia.
Qed.

Lemma movie_form_accepted (title year : string) :
  valid_field 60 title -> valid_field 4 year ->
  movie_form_check (Some title) (Some year) = false.
Proof.
  intros [Ht1 Ht2]%field_accepted [Hy1 Hy2]%field_accepted.
  unfold movie_form_check.
  change (N.of_nat 60) with 60 in Ht2. change (N.of_nat 4) with 4 in Hy2.
  by rewrite Ht1, Ht2, Hy1, Hy2.
Qed.

Lemma movie_form_rejected (title year : option string) :
  refused 60 title \/ refused 4 year ->
  movie_form_check title year = true.
Proof.
  unfold movie_form_check. intros [Hbad|Hbad].
  - destruct title as [t|]; [|done].
    apply field_rejected in Hbad as [->|Hlen]; [done|].
    change (N.of_nat 60) with 60 in Hlen. rewrite Hlen. by rewrite !orb_true_r.
  - destruct year as [y|]; [|by rewrite orb_true_r].
    apply field_rejected in Hbad as [->|Hlen]; [by rewrite orb_true_r|].
    change (N.of_nat 4) with 4 in Hlen. rewrite Hlen. by rewrite !orb_true_r.
Qed.

Lemma alter_title_year (t : gmap N Movie) (id : N) (m : Movie) (v1 v2 : option string) :
  t !! id = Some m ->
  alter (fun m => mkMovie (title m) v2) id
        (alter (fun m => mkMovie v1 (year m)) id t)
  = <[id := mkMovie v1 v2]> t.
Proof.
  intros Hid. apply map_eq. intros k.
  destruct (decide (id = k)) as [<-|Hne].
  - rewrite lookup_insert_eq, !lookup_alter_eq, Hid. done.
  - rewrite lookup_insert_ne by done. by rewrite !lookup_alter_ne.
Qed.

Lemma alter_user_name (t : gmap N User) (id : N) (u : User) (v : option string) :
  t !! id = Some u ->
  alter (fun u => mkUser v (username u) (password_hash u)) id t
  = <[id := mkUser v (username u) (password_hash u)]> t.
Proof.
  intros Hid. apply map_eq. intros k.
  destruct (decide (id = k)) as [<-|Hne].
  - rewrite lookup_insert_eq, lookup_alter_eq, Hid. done.
  - rewrite lookup_insert_ne by done. by rewrite lookup_alter_ne.
Qed.

Lemma session_user_lookup (db : DB) (s : Session) (id : N) (u : User) :
  session_user db s = Some (id, u) -> user_table db !! id = Some u.
Proof.
  unfold session_user, User_query_get.
  destruct (user_id s) as [id'|]; [|discriminate].
  destruct (user_table db !! id') as [u'|] eqn:Hrow; [|discriminate].
  by intros [= <- <-].
Qed.

(** ** What each request does *)

Ltac run_view :=
  unfold bind, ret, raise, lift, flash, form_get, form_getitem, get_store,
    get_session, put_session, render_template, inject_user, page_not_found,
    Movie_query_get_or_404, Movie_query_get, db_session_add, db_session_delete,
    db_session_record, db_session_commit, unauthorized, login_user, logout_user,
    handle_exception;
  cbn [store session pending movie_table user_table user_id flashes fst snd].

Section Requests.
Context `{PasswordHash}.
Implicit Types (req : Request) (db : DB) (s : Session).

Lemma create_run req db s (title year : option string) :
  Authenticated db s ->
  create_request req title year ->
  handle_request req db s
  = if movie_form_check title year
    then (redirect (url_for index_ep), db, flashed s "Invalid input.")
    else (redirect (url_for index_ep),
          mkDB (<[next_id (movie_table db) := mkMovie title year]> (movie_table db))
               (user_table db),
          flashed s "Item created.").
Proof.
  intros [row Hauth] (Hmethod & Hpath & Htitle & Hyear).
  unfold handle_request, dispatch_request. rewrite Hpath.
  unfold index. rewrite Hmethod. unfold bind at 1.
  rewrite current_user_run. cbn [store session]. rewrite Hauth.
  cbn [is_authenticated negb]. unfold form_get. rewrite Htitle, Hyear.
  fold (movie_form_check title year).
  by destruct (movie_form_check title year).
Qed.

Lemma update_run req db s (movie_id : N) (m : Movie) (title year : string) :
  Authenticated db s ->
  movie_table db !! movie_id = Some m ->
  update_request req movie_id title year ->
  handle_request req db s
  = if movie_form_check (Some title) (Some year)
    then (redirect (url_for (edit_ep movie_id)), db, flashed s "Invalid input")
    else (redirect (url_for index_ep),
          mkDB (<[movie_id := mkMovie (Some title) (Some year)]> (movie_table db))
               (user_table db),
          flashed s "Item update.").
Proof.
  intros [row Hauth] Hrow (Hmethod & Hpath & Htitle & Hyear).
  unfold handle_request, dispatch_request. rewrite Hpath.
  rewrite (login_required_authenticated _ _ _ row) by done.
  unfold edit, form_getitem. rewrite Hmethod, Htitle, Hyear.
  run_view. rewrite Hrow. run_view.
  fold (movie_form_check (Some title) (Some year)).
  destruct (movie_form_check (Some title) (Some year)); [done|].
  cbn [foldl app apply_change movie_table user_table store pending session
       user_id flashes].
  by rewrite (alter_title_year _ _ m).
Qed.

Lemma delete_run req db s (movie_id : N) (m : Movie) :
  Authenticated db s ->
  movie_table db !! movie_id = Some m ->
  delete_request req movie_id ->
  handle_request req db s
  = (redirect (url_for index_ep),
     mkDB (base.delete movie_id (movie_table db)) (user_table db),
     flashed s "Item deleted.").
Proof.
  intros [row Hauth] Hrow (Hmethod & Hpath).
  unfold handle_request, dispatch_request. rewrite Hpath, Hmethod.
  rewrite (login_required_authenticated _ _ _ row) by done.
  unfold delete. run_view. by rewrite Hrow.
Qed.

Lemma settings_run req db s (id : N) (u : User) (new_name : string) :
  session_user db s = Some (id, u) ->
  settings_request req new_name ->
  handle_request req db s
  = if negb (truthy (Some new_name)) || (20 <? len (Some new_name))
    then (redirect (url_for settings_ep), db, flashed s "Invalid input.")
    else (redirect (url_for index_ep),
          mkDB (movie_table db)
               (<[id := mkUser (Some new_name) (username u) (password_hash u)]>
                  (user_table db)),
          flashed s "Settings updated.").
Proof.
  intros Hauth (Hmethod & Hpath & Hname).
  unfold handle_request, dispatch_request. rewrite Hpath.
  rewrite (login_required_authenticated _ _ _ (id, u)) by done.
  unfold settings, form_getitem. rewrite Hmethod, Hname. run_view.
  destruct (negb (truthy (Some new_name)) || (20 <? len (Some new_name)));
    [done|].
  rewrite current_user_run.
  cbn [store session pending user_id flashes]. rewrite Hauth. run_view.
  cbn [foldl app apply_change movie_table user_table].
  by rewrite (alter_user_name _ _ u) by by eapply session_user_lookup.
Qed.


Lemma edit_form_run req db s (movie_id : N) (m : Movie) :
  Authenticated db s ->
  movie_table db !! movie_id = Some m ->
  method req = GET ->
  path req = edit_ep movie_id ->
  handle_request req db s
  = (page 200 "edit.html" (mkContext (User_query_first db) None (Some m)), db, s).
Proof.
  intros [row Hauth] Hrow Hmethod Hpath.
  unfold handle_request, dispatch_request. rewrite Hpath.
  rewrite (login_required_authenticated _ _ _ row) by done.
  unfold edit. rewrite Hmethod. run_view. by rewrite Hrow.
Qed.


Lemma login_run req db s (username password : string) :
  login_request req username password ->
  handle_request req db s = login_outcome db s username password.
Proof.
  intros (Hmethod & Hpath & Huser & Hpwd).
  unfold handle_request, dispatch_request, login_outcome. rewrite Hpath.
  unfold login, form_getitem. rewrite Hmethod, Huser, Hpwd. run_view.
  destruct (negb (truthy (Some username)) || negb (truthy (Some password)));
    [done|].
  run_view.
  destruct (User_query_first db) as [[id u]|]; [|by run_view].
  unfold row_username. cbn [snd].
  case_bool_decide; [|by run_view].
  destruct (validate_password u password) as [[]|[]]; by run_view.
Qed.
End Requests.

(** ** The claims about requests *)

Section RequestClaims.
Context `{PasswordHash}.
Implicit Types (req : Request) (db : DB) (s : Session).


(** C2.  An authenticated create with a nonempty title of at most 60
    characters and a nonempty year of at most 4 characters succeeds: the
    movie table afterwards is the one before plus one row, under a key that
    was not in use, holding that title and that year; the user table is the
    same and "Item created." is flashed. *)
Theorem create_valid_adds_one req db s (title year : string) :
  Authenticated db s ->
  create_request req (Some title) (Some year) ->
  valid_field 60 title ->
  valid_field 4 year ->
  movie_table db !! next_id (movie_table db) = None /\
  handle_request req db s
  = (redirect (url_for index_ep),
     mkDB (<[next_id (movie_table db) := mkMovie (Some title) (Some year)]>
             (movie_table db))
          (user_table db),
     flashed s "Item created.").
Proof.
  intros Hauth Hreq Ht Hy. split; [apply next_id_fresh|].
  rewrite (create_run _ _ _ _ _ Hauth Hreq).
  by rewrite movie_form_accepted.
Qed.

(** C3.  An authenticated create whose title is empty or longer than 60
    characters, or whose year is empty or longer than 4 characters (a
    missing field counts as empty), fails validation: "Invalid input." is
    flashed, the browser is sent back to the form, and both tables are
    exactly as before. *)
Theorem create_invalid_rejected req db s (title year : option string) :
  Authenticated db s ->
  create_request req title year ->
  refused 60 title \/ refused 4 year ->
  handle_request req db s
  = (redirect (url_for index_ep), db, flashed s "Invalid input.").
Proof.
  intros Hauth Hreq Hbad.
  rewrite (create_run _ _ _ _ _ Hauth Hreq).
  by rewrite movie_form_rejected.
Qed.

(** What an authenticated request for a movie id that is not in the catalog
    gets: the 404 page when SQLite can bind the id, a server error when the
    id is [sqlite_int_limit] or more.  Tables and session are unchanged in
    both cases. *)
Lemma missing_movie_answer req db s (movie_id : N) :
  Authenticated db s ->
  movie_table db !! movie_id = None ->
  path req = edit_ep movie_id \/ delete_request req movie_id ->
  handle_request req db s
  = (if sqlite_int_limit <=? movie_id
     then error_response 500
     else page 404 "404.html" (mkContext (User_query_first db) None None),
     db, s).
Proof.
  intros [row Hauth] Hrow Hreq.
  unfold handle_request, dispatch_request.
  destruct Hreq as [Hpath|[Hmethod Hpath]]; rewrite Hpath; try rewrite Hmethod.
  - rewrite (login_required_authenticated _ _ _ row) by done.
    unfold edit. run_view. rewrite Hrow.
    by destruct (sqlite_int_limit <=? movie_id).
  - rewrite (login_required_authenticated _ _ _ row) by done.
    unfold delete. run_view. rewrite Hrow.
    by destruct (sqlite_int_limit <=? movie_id).
Qed.

(** For an id below [sqlite_int_limit] that is not in the catalog the answer
    is the 404 page. *)
Lemma missing_movie_in_range req db s (movie_id : N) :
  Authenticated db s ->
  movie_table db !! movie_id = None ->
  movie_id < sqlite_int_limit ->
  path req = edit_ep movie_id \/ delete_request req movie_id ->
  handle_request req db s
  = (page 404 "404.html" (mkContext (User_query_first db) None None), db, s).
Proof.
  intros Hauth Hrow Hrange Hreq.
  rewrite (missing_movie_answer _ _ _ _ Hauth Hrow Hreq).
  by rewrite (proj2 (N.leb_gt _ _) Hrange).
Qed.

(** C6.  The claim fails for ids that do not fit SQLite's 64-bit keys.  For
    a movie id of [sqlite_int_limit] = 2^63 or more, which the route accepts
    and which is never in the catalog, an authenticated GET or POST of the
    edit route and an authenticated POST of the delete route do not get the
    404 page: the lookup raises [OverflowError] and the answer is a server
    error (status 500).  Tables and session are unchanged. *)
Theorem missing_movie_overflow req db s (movie_id : N) :
  Authenticated db s ->
  movie_table db !! movie_id = None ->
  sqlite_int_limit <= movie_id ->
  path req = edit_ep movie_id \/ delete_request req movie_id ->
  handle_request req db s = (error_response 500, db, s).
Proof.
  intros Hauth Hrow Hrange Hreq.
  rewrite (missing_movie_answer _ _ _ _ Hauth Hrow Hreq).
  by rewrite (proj2 (N.leb_le _ _) Hrange).
Qed.

(** C7.  An authenticated update of a movie that is in the catalog, with a
    valid title and year, followed by a read of that id, returns exactly
    that title and that year: both the row that [Movie.query.get] finds
    and the row the edit page is rendered with. *)
Theorem update_then_read req db s (movie_id : N) (m : Movie) (title year : string) :
  Authenticated db s ->
  movie_table db !! movie_id = Some m ->
  update_request req movie_id title year ->
  valid_field 60 title ->
  valid_field 4 year ->
  let '(_, db', s') := handle_request req db s in
  Movie_query_get db' movie_id = Some (mkMovie (Some title) (Some year)) /\
  forall read,
    method read = GET -> path read = edit_ep movie_id ->
    handle_request read db' s'
    = (page 200 "edit.html"
            (mkContext (User_query_first db') None
                       (Some (mkMovie (Some title) (Some year)))),
       db', s').
Proof.
  intros Hauth Hrow Hreq Ht Hy.
  rewrite (update_run _ _ _ _ _ _ _ Hauth Hrow Hreq).
  rewrite movie_form_accepted by done.
  assert (Hnew : <[movie_id := mkMovie (Some title) (Some year)]> (movie_table db)
                 !! movie_id = Some (mkMovie (Some title) (Some year)))
    by apply lookup_insert_eq.
  split; [exact Hnew|].
  intros read Hmethod Hpath.
  apply (edit_form_run read _ _ movie_id); [|exact Hnew|done..].
  destruct Hauth as [row Hauth]. exists row. exact Hauth.
Qed.

(** C8 (as amended).  When a user record exists, a login submission with an
    empty username or password is sent back to the login form with
    "Invalid input."; one with both fields filled in that does not
    authenticate, because the username is not the stored one or because
    the password does not validate, is sent back to the login form with
    "Invalid username or password.", the same response in both cases.
    Neither changes the tables or logs anyone in. *)
Theorem login_failure_notice req db s (uname password : string)
    (id : N) (u : User) :
  login_request req uname password ->
  User_query_first db = Some (id, u) ->
  (uname = "" \/ password = "" ->
   handle_request req db s
   = (redirect (url_for login_ep), db, flashed s "Invalid input.")) /\
  (uname <> "" -> password <> "" ->
   username u <> Some uname \/ validate_password u password = Ok false ->
   handle_request req db s
   = (redirect (url_for login_ep), db, flashed s "Invalid username or password.")).
Proof.
  intros Hreq Hfirst. rewrite (login_run _ _ _ _ _ Hreq). unfold login_outcome.
  split.
  - intros [->| ->]; [done|]. by rewrite orb_true_r.
  - intros Hu Hp Hfail.
    assert (Hcheck : negb (truthy (Some uname)) || negb (truthy (Some password))
                     = false).
    { simpl. destruct (String.eqb_spec uname ""); [done|].
      by destruct (String.eqb_spec password ""). }
    rewrite Hcheck, Hfirst.
    case_bool_decide as Hsame; [|done].
    destruct Hfail as [Hother| ->]; [|done].
    congruence.
Qed.

(** C9.  An authenticated settings update with an empty name or one longer
    than 20 characters is rejected: "Invalid input." is flashed and the
    tables, so the user record, are unchanged.  With any other name the
    [name] field of the logged-in user's row is overwritten with it and
    nothing else changes. *)
Theorem settings_update_name req db s (id : N) (u : User) (new_name : string) :
  session_user db s = Some (id, u) ->
  settings_request req new_name ->
  (invalid_field 20 new_name ->
   handle_request req db s
   = (redirect (url_for settings_ep), db, flashed s "Invalid input.")) /\
  (valid_field 20 new_name ->
   handle_request req db s
   = (redirect (url_for index_ep),
      mkDB (movie_table db)
           (<[id := mkUser (Some new_name) (username u) (password_hash u)]>
              (user_table db)),
      flashed s "Settings updated.")).
Proof.
  intros Hauth Hreq. rewrite (settings_run _ _ _ _ _ _ Hauth Hreq). split.
  - intros [Hempty|Hlong]%field_rejected.
    + by rewrite Hempty.
    + change (N.of_nat 20) with 20 in Hlong. by rewrite Hlong, orb_true_r.
  - intros [Hfull Hshort]%field_accepted.
    change (N.of_nat 20) with 20 in Hshort. by rewrite Hfull, Hshort.
Qed.

(** C10.  A successful catalog operation changes only its target.  A
    successful create leaves every row that was in the movie table as it
    was; a successful update of [movie_id] leaves that row under the same
    id with the new title and year, and every other movie row as it was; a
    successful delete of [movie_id] removes that row and leaves every
    other movie row as it was.  None of them touches the user table. *)
Theorem catalog_operations_frame db s :
  Authenticated db s ->
  (forall req (title year : string),
      create_request req (Some title) (Some year) ->
      valid_field 60 title -> valid_field 4 year ->
      let db' := (handle_request req db s).1.2 in
      (forall k m, movie_table db !! k = Some m -> movie_table db' !! k = Some m)
      /\ user_table db' = user_table db) /\
  (forall req (movie_id : N) (m : Movie) (title year : string),
      movie_table db !! movie_id = Some m ->
      update_request req movie_id title year ->
      valid_field 60 title -> valid_field 4 year ->
      let db' := (handle_request req db s).1.2 in
      movie_table db' !! movie_id = Some (mkMovie (Some title) (Some year))
      /\ (forall k, k <> movie_id -> movie_table db' !! k = movie_table db !! k)
      /\ user_table db' = user_table db) /\
  (forall req (movie_id : N) (m : Movie),
      movie_table db !! movie_id = Some m ->
      delete_request req movie_id ->
      let db' := (handle_request req db s).1.2 in
      movie_table db' !! movie_id = None
      /\ (forall k, k <> movie_id -> movie_table db' !! k = movie_table db !! k)
      /\ user_table db' = user_table db).
Proof.
  intros Hauth. split; [|split].
  - intros req title year Hreq Ht Hy db'. subst db'.
    rewrite (create_run _ _ _ _ _ Hauth Hreq), movie_form_accepted by done.
    split; [|done]. intros k m Hk. cbn.
    rewrite lookup_insert_ne; [done|].
    intros <-. by rewrite next_id_fresh in Hk.
  - intros req movie_id m title year Hrow Hreq Ht Hy db'. subst db'.
    rewrite (update_run _ _ _ _ _ _ _ Hauth Hrow Hreq), movie_form_accepted
      by done.
    cbn. split; [apply lookup_insert_eq|]. split; [|done].
    intros k Hk. by rewrite lookup_insert_ne.
  - intros req movie_id m Hrow Hreq db'. subst db'.
    rewrite (delete_run _ _ _ _ _ Hauth Hrow Hreq).
    cbn. split; [apply lookup_delete_eq|]. split; [|done].
    intros k Hk. by rewrite lookup_delete_ne.
Qed.

(** With no row in the user table, a login submission with both fields
    filled in does not reach the "invalid" branch: [user.username] is
    evaluated on [None] and the request ends in a server error. *)
Lemma login_without_user_row req db s (uname password : string) :
  login_request req uname password ->
  uname <> "" -> password <> "" ->
  user_table db = ∅ ->
  handle_request req db s = (error_response 500, db, s).
Proof.
  intros Hreq Hu Hp Hempty. rewrite (login_run _ _ _ _ _ Hreq).
  unfold login_outcome.
  assert (Hcheck : negb (truthy (Some uname)) || negb (truthy (Some password))
                   = false).
  { simpl. destruct (String.eqb_spec uname ""); [done|].
    by destruct (String.eqb_spec password ""). }
  rewrite Hcheck. unfold User_query_first.
  by rewrite (proj2 (first_row_None _) Hempty).
Qed.

(** The transition Anonymous -> Authenticated. *)
Lemma login_success req db s (uname password : string) (id : N) (u : User) :
  login_request req uname password ->
  uname <> "" -> password <> "" ->
  User_query_first db = Some (id, u) ->
  username u = Some uname ->
  validate_password u password = Ok true ->
  handle_request req db s
  = (redirect (url_for index_ep), db,
     mkSession (Some id) (flashes s ++ ["Login success."])).
Proof.
  intros Hreq Hu Hp Hfirst Hname Hvalid. rewrite (login_run _ _ _ _ _ Hreq).
  unfold login_outcome.
  assert (Hcheck : negb (truthy (Some uname)) || negb (truthy (Some password))
                   = false).
  { simpl. destruct (String.eqb_spec uname ""); [done|].
    by destruct (String.eqb_spec password ""). }
  rewrite Hcheck, Hfirst, Hname, bool_decide_eq_true_2 by done.
  by rewrite Hvalid.
Qed.
End RequestClaims.

(** ** The model on concrete requests *)

Lemma demo_logged_in_authenticated : Authenticated demo_db demo_logged_in.
Proof. exists (1, demo_admin). reflexivity. Defined.

Lemma demo_field_60 (v : string) :
  v <> "" -> (String.length v <=? 60)%nat = true -> valid_field 60 v.
Proof. intros Hne Hlen. split; [done|]. by apply Nat.leb_le. Defined.

Lemma demo_field_4 (v : string) :
  v <> "" -> (String.length v <=? 4)%nat = true -> valid_field 4 v.
Proof. intros Hne Hlen. split; [done|]. by apply Nat.leb_le. Defined.



Lemma create_valid_adds_one_witness :
  movie_table demo_db !! next_id (movie_table demo_db) = None /\
  @handle_request demo_hash demo_create demo_db demo_logged_in
  = (redirect (url_for index_ep),
     mkDB (<[next_id (movie_table demo_db)
             := mkMovie (Some "Inception") (Some "2010")]> (movie_table demo_db))
          (user_table demo_db),
     flashed demo_logged_in "Item created.").
Proof.
  apply (@create_valid_adds_one demo_hash demo_create demo_db demo_logged_in
           "Inception" "2010" demo_logged_in_authenticated).
  - repeat split.
  - apply demo_field_60; [discriminate|reflexivity].
  - apply demo_field_4; [discriminate|reflexivity].
Defined.

Lemma create_invalid_rejected_witness :
  @handle_request demo_hash demo_create_untitled demo_db demo_logged_in
  = (redirect (url_for index_ep), demo_db, flashed demo_logged_in "Invalid input.").
Proof.
  apply (@create_invalid_rejected demo_hash demo_create_untitled demo_db
           demo_logged_in (Some "") (Some "2010") demo_logged_in_authenticated).
  - repeat split.
  - left. left. reflexivity.
Defined.

Lemma missing_movie_in_range_demo :
  @handle_request demo_hash demo_delete_missing demo_db demo_logged_in
  = (page 404 "404.html" (mkContext (User_query_first demo_db) None None),
     demo_db, demo_logged_in).
Proof.
  apply (@missing_movie_in_range demo_hash demo_delete_missing demo_db
           demo_logged_in 7 demo_logged_in_authenticated).
  - reflexivity.
  - reflexivity.
  - right. split; reflexivity.
Qed.

Lemma missing_movie_overflow_witness :
  @handle_request demo_hash demo_delete_huge demo_db demo_logged_in
  = (error_response 500, demo_db, demo_logged_in).
Proof.
  apply (@missing_movie_overflow demo_hash demo_delete_huge demo_db
           demo_logged_in 9223372036854775808 demo_logged_in_authenticated).
  - reflexivity.
  - apply N.leb_le. reflexivity.
  - right. split; reflexivity.
Defined.

Lemma update_then_read_witness :
  let '(_, db', s') := @handle_request demo_hash demo_update demo_db demo_logged_in in
  Movie_query_get db' 5 = Some (mkMovie (Some "New Title") (Some "1999")) /\
  forall read,
    method read = GET -> path read = edit_ep 5 ->
    @handle_request demo_hash read db' s'
    = (page 200 "edit.html"
            (mkContext (User_query_first db') None
                       (Some (mkMovie (Some "New Title") (Some "1999")))),
       db', s').
Proof.
  apply (@update_then_read demo_hash demo_update demo_db demo_logged_in 5
           (mkMovie (Some "Mahjong") (Some "1996")) "New Title" "1999"
           demo_logged_in_authenticated).
  - reflexivity.
  - repeat split.
  - apply demo_field_60; [discriminate|reflexivity].
  - apply demo_field_4; [discriminate|reflexivity].
Defined.

(** A login submission with an empty password does not authenticate, and its
    notification is not the one a wrong password gets. *)
Lemma login_empty_password_other_notice :
  let empty := @handle_request demo_hash (demo_login "alice" "") demo_db demo_anonymous in
  let wrong := @handle_request demo_hash (demo_login "alice" "wrong") demo_db demo_anonymous in
  Anonymous empty.1.2 empty.2 /\
  Anonymous wrong.1.2 wrong.2 /\
  flashes wrong.2 = ["Invalid username or password."] /\
  flashes empty.2 = ["Invalid input."] /\
  flashes empty.2 <> flashes wrong.2.
Proof.
  cbv zeta. repeat split; try reflexivity. discriminate.
Qed.

Lemma login_failure_notice_witness :
  @handle_request demo_hash (demo_login "alice" "") demo_db demo_anonymous
  = (redirect (url_for login_ep), demo_db, flashed demo_anonymous "Invalid input.") /\
  @handle_request demo_hash (demo_login "bob" "secret") demo_db demo_anonymous
  = (redirect (url_for login_ep), demo_db,
     flashed demo_anonymous "Invalid username or password.") /\
  @handle_request demo_hash (demo_login "alice" "wrong") demo_db demo_anonymous
  = (redirect (url_for login_ep), demo_db,
     flashed demo_anonymous "Invalid username or password.").
Proof.
  split; [|split].
  - apply (proj1 (@login_failure_notice demo_hash (demo_login "alice" "") demo_db
                    demo_anonymous "alice" "" 1 demo_admin
                    (conj eq_refl (conj eq_refl (conj eq_refl eq_refl))) eq_refl)).
    right. reflexivity.
  - apply (proj2 (@login_failure_notice demo_hash (demo_login "bob" "secret") demo_db
                    demo_anonymous "bob" "secret" 1 demo_admin
                    (conj eq_refl (conj eq_refl (conj eq_refl eq_refl))) eq_refl)).
    + discriminate.
    + discriminate.
    + left. discriminate.
  - apply (proj2 (@login_failure_notice demo_hash (demo_login "alice" "wrong") demo_db
                    demo_anonymous "alice" "wrong" 1 demo_admin
                    (conj eq_refl (conj eq_refl (conj eq_refl eq_refl))) eq_refl)).
    + discriminate.
    + discriminate.
    + right. reflexivity.
Defined.

(** The same submission when the user table is empty. *)
Lemma login_without_user_row_demo :
  @handle_request demo_hash (demo_login "alice" "secret")
     (mkDB (movie_table demo_db) ∅) demo_anonymous
  = (error_response 500, mkDB (movie_table demo_db) ∅, demo_anonymous).
Proof.
  apply (@login_without_user_row demo_hash _ _ _ "alice" "secret").
  - repeat split.
  - discriminate.
  - discriminate.
  - reflexivity.
Qed.

Lemma settings_update_name_witness :
  @handle_request demo_hash demo_settings demo_db demo_logged_in
  = (redirect (url_for index_ep),
     mkDB (movie_table demo_db)
          (<[1 := mkUser (Some "Alice L.") (username demo_admin)
                         (password_hash demo_admin)]> (user_table demo_db)),
     flashed demo_logged_in "Settings updated.") /\
  @handle_request demo_hash (mkRequest POST settings_ep {[ "name" := "" ]})
     demo_db demo_logged_in
  = (redirect (url_for settings_ep), demo_db, flashed demo_logged_in "Invalid input.").
Proof.
  split.
  - apply (proj2 (@settings_update_name demo_hash demo_settings demo_db
                    demo_logged_in 1 demo_admin "Alice L." eq_refl
                    (conj eq_refl (conj eq_refl eq_refl)))).
    split; [discriminate|]. apply Nat.leb_le. reflexivity.
  - refine (proj1 (@settings_update_name demo_hash
                     (mkRequest POST settings_ep {[ "name" := "" ]}) demo_db
                     demo_logged_in 1 demo_admin "" eq_refl _) _).
    + repeat split.
    + left. reflexivity.
Defined.

Lemma catalog_operations_frame_witness :
  (let db' := (@handle_request demo_hash demo_create demo_db demo_logged_in).1.2 in
   (forall k m, movie_table demo_db !! k = Some m -> movie_table db' !! k = Some m)
   /\ user_table db' = user_table demo_db) /\
  (let db' := (@handle_request demo_hash demo_update demo_db demo_logged_in).1.2 in
   movie_table db' !! 5 = Some (mkMovie (Some "New Title") (Some "1999"))
   /\ (forall k, k <> 5 -> movie_table db' !! k = movie_table demo_db !! k)
   /\ user_table db' = user_table demo_db) /\
  (let db' := (@handle_request demo_hash demo_delete demo_db demo_logged_in).1.2 in
   movie_table db' !! 5 = None
   /\ (forall k, k <> 5 -> movie_table db' !! k = movie_table demo_db !! k)
   /\ user_table db' = user_table demo_db).
Proof.
  destruct (@catalog_operations_frame demo_hash demo_db demo_logged_in
              demo_logged_in_authenticated) as (Hcreate & Hupdate & Hdelete).
  split; [|split].
  - apply (Hcreate demo_create "Inception" "2010").
    + repeat split.
    + apply demo_field_60; [discriminate|reflexivity].
    + apply demo_field_4; [discriminate|reflexivity].
  - apply (Hupdate demo_update 5 (mkMovie (Some "Mahjong") (Some "1996"))
                   "New Title" "1999").
    + reflexivity.
    + repeat split.
    + apply demo_field_60; [discriminate|reflexivity].
    + apply demo_field_4; [discriminate|reflexivity].
  - apply (Hdelete demo_delete 5 (mkMovie (Some "Mahjong") (Some "1996"))).
    + reflexivity.
    + split; reflexivity.
Defined.

(** * Beyond the claims *)
Section MoreKeys.
Context {A : Type}.
Implicit Types (t : gmap N A) (k : N) (v : A).

Lemma max_id_insert t k v :
  t !! k = None -> max_id (<[k := v]> t) = N.max k (max_id t).
Proof.
  intros Hk. unfold max_id.
  rewrite (map_fold_insert_L (fun k (_ : A) acc => N.max k acc) 0 k v t); [done| |done].
  intros. lia.
Qed.

Lemma max_id_insert_next t v : max_id (<[next_id t := v]> t) = next_id t.
Proof.
  rewrite max_id_insert by apply next_id_fresh. unfold next_id. lia.
Qed.

Lemma next_id_after_insert t v :
  next_id (<[next_id t := v]> t) = N.succ (next_id t).
Proof. unfold next_id at 1. by rewrite max_id_insert_next. Qed.

Lemma first_row_unique t k v :
  t !! k = Some v ->
  (forall k' v', t !! k' = Some v' -> k <= k') ->
  first_row t = Some (k, v).
Proof.
  intros Hk Hleast.
  destruct (first_row t) as [[k0 v0]|] eqn:Hfirst.
  - pose proof (first_row_lookup _ _ _ Hfirst) as Hk0.
    pose proof (first_row_least _ _ _ _ _ Hfirst Hk) as Hle.
    pose proof (Hleast _ _ Hk0) as Hge.
    assert (k0 = k) as -> by lia. congruence.
  - apply first_row_None in Hfirst. subst t. by rewrite lookup_empty in Hk.
Qed.

Lemma first_row_overwrite t k v v' :
  first_row t = Some (k, v) -> first_row (<[k := v']> t) = Some (k, v').
Proof.
  intros Hfirst. apply first_row_unique; [apply lookup_insert_eq|].
  intros k' w Hk'. destruct (decide (k = k')) as [->|Hne]; [lia|].
  rewrite lookup_insert_ne in Hk' by done.
  by eapply first_row_least.
Qed.

Lemma first_row_first_insert t v :
  first_row t = None -> first_row (<[next_id t := v]> t) = Some (1, v).
Proof.
  intros ->%first_row_None.
  assert (Hnext : next_id (∅ : gmap N A) = 1).
  { unfold next_id, max_id. by rewrite map_fold_empty. }
  rewrite Hnext. apply first_row_unique; [apply lookup_insert_eq|].
  intros k' w Hk'. destruct (decide (1 = k')) as [<-|Hne]; [lia|].
  by rewrite lookup_insert_ne, lookup_empty in Hk'.
Qed.
End MoreKeys.

Section Admin.
Context `{PasswordHash}.

Lemma validate_password_accepts_own (u : User) (draws : list nat) (p : string) :
  validate_password (set_password draws u p) p = Ok true.
Proof. rewrite validate_password_set_password. by rewrite String.eqb_refl. Qed.

(** What [User.query.first()] returns after [admin]. *)
Lemma admin_first_user (draws : list nat) (uname password : string) (db : DB) :
  exists id u,
    User_query_first (admin draws uname password db).1 = Some (id, u) /\
    name u = Some uname /\ username u = Some uname /\
    validate_password u password = Ok true /\
    movie_table (admin draws uname password db).1 = movie_table db.
Proof.
  unfold admin, User_query_first.
  destruct (first_row (user_table db)) as [[id u]|] eqn:Hfirst.
  - eexists id, _. cbn [fst movie_table user_table]. split.
    + by apply (first_row_overwrite _ _ u).
    + repeat split. apply validate_password_accepts_own.
  - eexists 1, _. cbn [fst movie_table user_table]. split.
    + by apply first_row_first_insert.
    + repeat split. apply validate_password_accepts_own.
Qed.
End Admin.

Ltac open_request req :=
  destruct req as [m p f];
  unfold handle_request, dispatch_request; cbn [path method form].

Ltac through_guard db s :=
  let row := fresh "row" in
  let Hs := fresh "Hs" in
  destruct (session_user db s) as [row|] eqn:Hs;
  [ rewrite (login_required_authenticated _ _ _ row) by exact Hs
  | rewrite login_required_anonymous by exact Hs ].

Ltac run_steps :=
  repeat progress
    (run_view; try rewrite current_user_run;
     cbn [store session pending movie_table user_table user_id flashes
          is_authenticated negb foldl app apply_change]).

Ltac case_step :=
  match goal with
  | |- context [match ?x with Some _ => _ | None => _ end] => destruct x eqn:?
  | |- context [if ?c then _ else _] => destruct c eqn:?
  | |- context [match ?x with Ok _ => _ | Raise _ => _ end] => destruct x eqn:?
  | |- context [match ?x with NotFound => _ | _ => _ end] => destruct x
  | |- context [match ?x with (_, _) => _ end] => is_var x; destruct x
  end.

Ltac run_all :=
  unfold index, edit, delete, logout, settings, login, form_getitem, form_get;
  cbn [path method form];
  repeat (run_steps; try case_step; simplify_eq).


Section StoreChange.
Context `{PasswordHash}.
Implicit Types (req : Request) (db : DB) (s : Session).

(** X1.  A request changes the tables only if it is a POST, made from an
    authenticated session, to the index page or to the edit, delete or
    settings route. *)
Theorem store_change_needs_authenticated_post req db s :
  (handle_request req db s).1.2 <> db ->
  method req = POST /\ Authenticated db s /\ writes_store (path req).
Proof.
  open_request req. unfold Authenticated.
  destruct p, m; try through_guard db s; run_all;
    try (intros Hchange; by destruct Hchange);
    intros _; cbn; eauto.
  all: destruct (session_user db s) as [row|]; run_all; eauto.
Qed.
End StoreChange.

Section Invariants2.
Context `{PasswordHash}.
Implicit Types (req : Request) (db : DB) (s : Session).

(** X2.  No request creates or deletes a user row, and none changes a
    username or a password hash: after any request every key of the user
    table holds a row exactly when it did before, with the same
    credentials. *)
Theorem requests_keep_credentials req db s (k : N) :
  credentials <$> user_table (handle_request req db s).1.2 !! k
  = credentials <$> user_table db !! k.
Proof.
  open_request req.
  destruct p, m; try through_guard db s; run_all; try done.
  all: match goal with
       | |- context [alter ?f ?i ?t !! ?j] =>
           destruct (decide (i = j)) as [->|Hne];
           [rewrite lookup_alter_eq|rewrite lookup_alter_ne by done]
       end; try done.
  all: by destruct (user_table db !! k).
Qed.

(** X3.  The user id kept in the session changes only through the login and
    logout routes. *)
Theorem session_user_changes_by_login_logout req db s :
  user_id (handle_request req db s).2 <> user_id s ->
  path req = login_ep \/ path req = logout_ep.
Proof.
  open_request req.
  destruct p, m; try through_guard db s; run_all;
    try (intros Hchange; by destruct Hchange); eauto.
Qed.


(** X5.  An authenticated GET of the logout route ends the session: the
    response redirects to the index page with "Goodbye" flashed, the tables
    are unchanged and the session is Anonymous afterwards. *)
Theorem logout_ends_session req db s :
  Authenticated db s ->
  method req = GET -> path req = logout_ep ->
  handle_request req db s
  = (redirect (url_for index_ep), db, mkSession None (flashes s ++ ["Goodbye"])) /\
  Anonymous db (handle_request req db s).2.
Proof.
  intros [row Hauth]. open_request req. intros -> ->.
  rewrite (login_required_authenticated _ _ _ row) by exact Hauth.
  unfold logout. run_steps. by split.
Qed.

(** X6.  A successful login makes the session Authenticated as the first
    user row: the response redirects to the index page, the tables are
    unchanged, and the session user afterwards is that row. *)
Theorem login_establishes_session req db s (uname password : string)
    (id : N) (u : User) :
  login_request req uname password ->
  uname <> "" -> password <> "" ->
  User_query_first db = Some (id, u) ->
  username u = Some uname ->
  validate_password u password = Ok true ->
  let '(resp, db', s') := handle_request req db s in
  resp = redirect (url_for index_ep) /\ db' = db /\
  session_user db' s' = Some (id, u).
Proof.
  intros Hreq Hu Hp Hfirst Hname Hvalid.
  rewrite (login_run _ _ _ _ _ Hreq). unfold login_outcome.
  assert (Hcheck : negb (truthy (Some uname)) || negb (truthy (Some password))
                   = false).
  { simpl. destruct (String.eqb_spec uname ""); [done|].
    by destruct (String.eqb_spec password ""). }
  rewrite Hcheck, Hfirst, Hname, bool_decide_eq_true_2 by done.
  rewrite Hvalid. repeat split.
  unfold session_user, User_query_get. cbn [user_id].
  by rewrite (first_row_lookup _ _ _ Hfirst).
Qed.

(** X7.  An authenticated update whose title is empty or longer than 60
    characters, or whose year is empty or longer than 4, changes nothing:
    "Invalid input" is flashed and the browser is sent back to the edit page
    of the same movie. *)
Theorem update_invalid_rejected req db s (movie_id : N) (m : Movie)
    (title year : string) :
  Authenticated db s ->
  movie_table db !! movie_id = Some m ->
  update_request req movie_id title year ->
  invalid_field 60 title \/ invalid_field 4 year ->
  handle_request req db s
  = (redirect (url_for (edit_ep movie_id)), db, flashed s "Invalid input").
Proof.
  intros Hauth Hrow Hreq Hbad.
  rewrite (update_run _ _ _ _ _ _ _ Hauth Hrow Hreq).
  by rewrite (movie_form_rejected (Some title) (Some year)).
Qed.

(** X8.  A form field read with [request.form[...]] that is missing from the
    submission ends the request with status 400 before anything is flashed
    or written: the title or year of an edit, the name of a settings
    update, the username or password of a login. *)
Theorem missing_field_bad_request req db s :
  method req = POST ->
  (forall movie_id (m : Movie),
      path req = edit_ep movie_id ->
      Authenticated db s ->
      movie_table db !! movie_id = Some m ->
      form req !! "title" = None \/ form req !! "year" = None ->
      handle_request req db s = (error_response 400, db, s)) /\
  (path req = settings_ep ->
   Authenticated db s ->
   form req !! "name" = None ->
   handle_request req db s = (error_response 400, db, s)) /\
  (path req = login_ep ->
   form req !! "username" = None \/ form req !! "password" = None ->
   handle_request req db s = (error_response 400, db, s)).
Proof.
  open_request req. intros ->. split; [|split].
  - intros movie_id m0 -> [row Hauth] Hrow Hmissing.
    rewrite (login_required_authenticated _ _ _ row) by exact Hauth.
    unfold edit, form_getitem. cbn [method form]. run_steps. rewrite Hrow.
    destruct Hmissing as [Hmissing|Hmissing]; rewrite Hmissing; run_steps;
      [done|].
    by destruct (f !! "title"); run_steps.
  - intros -> [row Hauth] Hmissing.
    rewrite (login_required_authenticated _ _ _ row) by exact Hauth.
    unfold settings, form_getitem. cbn [method form]. rewrite Hmissing.
    by run_steps.
  - intros -> Hmissing.
    unfold login, form_getitem. cbn [method form].
    destruct Hmissing as [Hmissing|Hmissing]; rewrite Hmissing; run_steps;
      [done|].
    by destruct (f !! "username"); run_steps.
Qed.
End Invariants2.

Section Compositions.
Context `{PasswordHash}.
Implicit Types (req : Request) (db : DB) (s : Session).

Lemma authenticated_after db s (movies : gmap N Movie) (message : string) :
  Authenticated db s ->
  Authenticated (mkDB movies (user_table db)) (flashed s message).
Proof. intros [row Hauth]. exists row. exact Hauth. Qed.

(** X9.  After a successful delete the catalog has one row fewer, and the
    deleted id is gone for good: reading it through the edit page or
    deleting it again answers with the 404 page and changes nothing.  The id
    is that of a stored row, so below [sqlite_int_limit]. *)
Theorem delete_then_not_found req db s (movie_id : N) (m : Movie) :
  Authenticated db s ->
  movie_table db !! movie_id = Some m ->
  movie_id < sqlite_int_limit ->
  delete_request req movie_id ->
  let '(_, db', s') := handle_request req db s in
  size (movie_table db') = pred (size (movie_table db)) /\
  forall again,
    path again = edit_ep movie_id \/ delete_request again movie_id ->
    handle_request again db' s'
    = (page 404 "404.html" (mkContext (User_query_first db') None None), db', s').
Proof.
  intros Hauth Hrow Hrange Hreq. rewrite (delete_run _ _ _ _ _ Hauth Hrow Hreq).
  split.
  - cbn [movie_table]. by apply map_size_delete_Some.
  - intros again Hagain. apply (missing_movie_in_range again _ _ movie_id).
    + by apply authenticated_after.
    + apply lookup_delete_eq.
    + done.
    + done.
Qed.

(** X10.  Creating a movie and then deleting the id it was given restores
    the movie table exactly; the user table is the same throughout. *)
Theorem create_then_delete_restores req del db s (title year : string) :
  Authenticated db s ->
  create_request req (Some title) (Some year) ->
  valid_field 60 title -> valid_field 4 year ->
  delete_request del (next_id (movie_table db)) ->
  let '(_, db1, s1) := handle_request req db s in
  (handle_request del db1 s1).1.2 = db.
Proof.
  intros Hauth Hreq Ht Hy Hdel.
  rewrite (create_run _ _ _ _ _ Hauth Hreq), movie_form_accepted by done.
  rewrite (delete_run del _ _ (next_id (movie_table db))
                      (mkMovie (Some title) (Some year))).
  - cbn [fst snd movie_table user_table].
    rewrite delete_insert_id by apply next_id_fresh. by destruct db.
  - by apply authenticated_after.
  - apply lookup_insert_eq.
  - done.
Qed.

(** X11.  Creating does not look for duplicates: two valid creates in a row,
    even with the same title and year, add two rows, under two consecutive
    new ids. *)
Theorem create_twice_adds_two req1 req2 db s (t1 y1 t2 y2 : string) :
  Authenticated db s ->
  create_request req1 (Some t1) (Some y1) ->
  valid_field 60 t1 -> valid_field 4 y1 ->
  create_request req2 (Some t2) (Some y2) ->
  valid_field 60 t2 -> valid_field 4 y2 ->
  let '(_, db1, s1) := handle_request req1 db s in
  let db2 := (handle_request req2 db1 s1).1.2 in
  let id := next_id (movie_table db) in
  movie_table db2 !! id = Some (mkMovie (Some t1) (Some y1)) /\
  movie_table db2 !! (id + 1) = Some (mkMovie (Some t2) (Some y2)) /\
  size (movie_table db2) = S (S (size (movie_table db))).
Proof.
  intros Hauth Hreq1 Ht1 Hy1 Hreq2 Ht2 Hy2.
  rewrite (create_run _ _ _ _ _ Hauth Hreq1), movie_form_accepted by done.
  rewrite (create_run req2 _ _ (Some t2) (Some y2)), movie_form_accepted;
    [|done..|by apply authenticated_after|done].
  cbn [fst snd movie_table user_table].
  rewrite next_id_after_insert, N.add_1_r.
  assert (Hfresh := next_id_fresh (movie_table db)).
  assert (Hne : N.succ (next_id (movie_table db)) <> next_id (movie_table db))
    by lia.
  assert (Hfresh' : movie_table db !! N.succ (next_id (movie_table db)) = None).
  { destruct (movie_table db !! N.succ (next_id (movie_table db))) eqn:Hk; [|done].
    apply max_id_upper_bound in Hk. unfold next_id in Hk. lia. }
  split; [|split].
  - rewrite lookup_insert_ne by done. apply lookup_insert_eq.
  - apply lookup_insert_eq.
  - rewrite !map_size_insert_None; [done|done|].
    by rewrite lookup_insert_ne.
Qed.

(** X12.  Updates overwrite: after two valid updates of the same movie the
    row holds the title and year of the second, and the store is the one a
    single update with those values would have produced. *)
Theorem update_twice_last_wins req1 req2 db s (movie_id : N) (m : Movie)
    (t1 y1 t2 y2 : string) :
  Authenticated db s ->
  movie_table db !! movie_id = Some m ->
  update_request req1 movie_id t1 y1 ->
  valid_field 60 t1 -> valid_field 4 y1 ->
  update_request req2 movie_id t2 y2 ->
  valid_field 60 t2 -> valid_field 4 y2 ->
  let '(_, db1, s1) := handle_request req1 db s in
  let db2 := (handle_request req2 db1 s1).1.2 in
  Movie_query_get db2 movie_id = Some (mkMovie (Some t2) (Some y2)) /\
  db2 = (handle_request req2 db s).1.2.
Proof.
  intros Hauth Hrow Hreq1 Ht1 Hy1 Hreq2 Ht2 Hy2.
  rewrite (update_run _ _ _ _ _ _ _ Hauth Hrow Hreq1), movie_form_accepted by done.
  rewrite (update_run req2 _ _ movie_id (mkMovie (Some t1) (Some y1)) t2 y2);
    [|by apply authenticated_after|apply lookup_insert_eq|done].
  rewrite (update_run _ _ _ _ _ _ _ Hauth Hrow Hreq2).
  rewrite movie_form_accepted by done.
  cbn [fst snd movie_table user_table]. split.
  - apply lookup_insert_eq.
  - by rewrite insert_insert_eq.
Qed.

(** X13.  Renaming keeps the user logged in and able to log in again: after
    a valid settings update the session user is the same row with the new
    name, and its username and password hash are the old ones. *)
Theorem settings_keeps_login req db s (id : N) (u : User) (new_name : string) :
  session_user db s = Some (id, u) ->
  settings_request req new_name ->
  valid_field 20 new_name ->
  let '(_, db', s') := handle_request req db s in
  exists u',
    session_user db' s' = Some (id, u') /\
    name u' = Some new_name /\ credentials u' = credentials u.
Proof.
  intros Hauth Hreq [Hfull Hshort]%field_accepted.
  rewrite (settings_run _ _ _ _ _ _ Hauth Hreq).
  change (N.of_nat 20) with 20 in Hshort. rewrite Hfull, Hshort.
  exists (mkUser (Some new_name) (username u) (password_hash u)).
  split; [|done].
  unfold session_user, User_query_get in *. cbn [user_id user_table flashed].
  destruct (user_id s) as [id'|]; [|done].
  destruct (user_table db !! id') as [u0|] eqn:Hrow; [|done].
  injection Hauth as -> ->. by rewrite lookup_insert_eq.
Qed.

(** X14.  The index page needs no login: a GET of [/] from any session,
    Anonymous or not, renders [index.html] with every row of the movie
    table and changes nothing. *)
Theorem index_lists_catalog req db s :
  method req = GET -> path req = index_ep ->
  handle_request req db s
  = (page 200 "index.html"
          (mkContext (User_query_first db) (Some (movie_table db)) None),
     db, s).
Proof. open_request req. intros -> ->. by run_all. Qed.
End Compositions.

Section AddRows.
Context {A : Type}.
Implicit Types (t : gmap N A) (rows : list A).

Lemma add_rows_spec rows : forall t,
  (forall k v, t !! k = Some v -> add_rows t rows !! k = Some v) /\
  size (add_rows t rows) = (size t + length rows)%nat /\
  max_id (add_rows t rows) = max_id t + N.of_nat (length rows) /\
  (forall i row, rows !! i = Some row ->
     add_rows t rows !! (max_id t + 1 + N.of_nat i) = Some row).
Proof.
  induction rows as [|r rows IH]; intros t.
  - unfold add_rows. cbn [foldl length]. split; [done|]. split; [lia|].
    split; [lia|]. intros i row Hi. by rewrite lookup_nil in Hi.
  - specialize (IH (<[next_id t := r]> t)) as (Hkeep & Hsize & Hmax & Hnew).
    change (add_rows t (r :: rows)) with (add_rows (<[next_id t := r]> t) rows).
    rewrite max_id_insert_next in Hmax, Hnew.
    rewrite map_size_insert_None in Hsize by apply next_id_fresh.
    split; [|split; [|split]].
    + intros k v Hk. apply Hkeep. rewrite lookup_insert_ne; [done|].
      intros <-. by rewrite next_id_fresh in Hk.
    + cbn [length]. lia.
    + rewrite Hmax. unfold next_id. cbn [length]. lia.
    + intros [|i] row Hi.
      * injection Hi as ->. replace (max_id t + 1 + N.of_nat 0) with (next_id t)
          by (unfold next_id; lia).
        apply Hkeep, lookup_insert_eq.
      * replace (max_id t + 1 + N.of_nat (S i)) with (next_id t + 1 + N.of_nat i)
          by (unfold next_id; lia).
        by apply Hnew.
Qed.
End AddRows.

Lemma app5_add_movies (rows : list Movie) : forall db : App5.DB,
  foldl App5.apply_change db (map App5.add_movie rows)
  = App5.mkDB (add_rows (App5.movie_table db) rows) (App5.user_table db).
Proof.
  induction rows as [|r rows IH]; intros db; [by destruct db|].
  cbn [map foldl]. by rewrite IH.
Qed.

Lemma app5_forge_store (db : App5.DB) :
  (App5.forge db).1
  = App5.mkDB (add_rows (App5.movie_table db) (map app5_fixture App5.movies))
              (<[next_id (App5.user_table db) := App5.mkUser (Some "Grey Li")]>
                 (App5.user_table db)).
Proof.
  unfold App5.forge. cbn [fst foldl App5.apply_change].
  change (map (fun m => App5.add_movie (mkMovie (Some m.1) (Some m.2))) App5.movies)
    with (map App5.add_movie (map app5_fixture App5.movies)).
  by rewrite app5_add_movies.
Qed.

(** X15.  [forge] of [app5] only adds: every movie and user row that was in
    the store is kept as it was, one user named "Grey Li" is added under the
    next user id, and the ten movies of the list are added under the next
    ten movie ids, in the order of the list. *)
Theorem app5_forge_adds_fixtures (db : App5.DB) :
  let db' := (App5.forge db).1 in
  (forall k m, App5.movie_table db !! k = Some m ->
               App5.movie_table db' !! k = Some m) /\
  (forall k u, App5.user_table db !! k = Some u ->
               App5.user_table db' !! k = Some u) /\
  size (App5.movie_table db') = (size (App5.movie_table db) + 10)%nat /\
  size (App5.user_table db') = S (size (App5.user_table db)) /\
  App5.user_table db' !! next_id (App5.user_table db)
  = Some (App5.mkUser (Some "Grey Li")) /\
  (forall i title year,
      App5.movies !! i = Some (title, year) ->
      App5.movie_table db' !! (max_id (App5.movie_table db) + 1 + N.of_nat i)
      = Some (mkMovie (Some title) (Some year))).
Proof.
  cbv zeta. rewrite app5_forge_store. cbn [App5.movie_table App5.user_table].
  destruct (add_rows_spec (map app5_fixture App5.movies) (App5.movie_table db))
    as (Hkeep & Hsize & _ & Hnew).
  repeat split.
  - exact Hkeep.
  - intros k u Hk. rewrite lookup_insert_ne; [done|].
    intros <-. by rewrite next_id_fresh in Hk.
  - exact Hsize.
  - apply map_size_insert_None, next_id_fresh.
  - apply lookup_insert_eq.
  - intros i title year Hi. apply Hnew.
    by rewrite list_lookup_fmap, Hi.
Qed.

(** X16.  [forge] of [app5] is not idempotent: running it twice leaves
    twenty more movies and two more users than before. *)
Theorem app5_forge_twice_duplicates (db : App5.DB) :
  let db2 := (App5.forge (App5.forge db).1).1 in
  size (App5.movie_table db2) = (size (App5.movie_table db) + 20)%nat /\
  size (App5.user_table db2) = S (S (size (App5.user_table db))).
Proof.
  cbv zeta. rewrite !app5_forge_store. cbn [App5.movie_table App5.user_table].
  split.
  - destruct (add_rows_spec (map app5_fixture App5.movies)
                (add_rows (App5.movie_table db) (map app5_fixture App5.movies)))
      as (_ & -> & _).
    destruct (add_rows_spec (map app5_fixture App5.movies) (App5.movie_table db))
      as (_ & -> & _).
    cbn [length map App5.movies]. lia.
  - by rewrite !map_size_insert_None by apply next_id_fresh.
Qed.

Section Cli.
Context `{PasswordHash}.
Implicit Types (req : Request) (db : DB) (s : Session).

(** X17.  [admin] followed by a login with the same username and password
    (both nonempty) succeeds whatever the store held before: the response
    redirects to the index page and the session is Authenticated. *)
Theorem admin_then_login req db s (draws : list nat) (uname password : string) :
  login_request req uname password ->
  uname <> "" -> password <> "" ->
  let db' := (admin draws uname password db).1 in
  let '(resp, db'', s') := handle_request req db' s in
  resp = redirect (url_for index_ep) /\ db'' = db' /\ Authenticated db' s'.
Proof.
  intros Hreq Hu Hp db'.
  destruct (admin_first_user draws uname password db)
    as (id & u & Hfirst & _ & Hname & Hvalid & _).
  fold db' in Hfirst.
  rewrite (login_success req db' s uname password id u) by done.
  repeat split. exists (id, u).
  unfold session_user, User_query_get. cbn [user_id].
  by rewrite (first_row_lookup _ _ _ Hfirst).
Qed.

(** X18.  [admin] never adds a second user: it fills an empty user table
    with one row and otherwise rewrites the first row in place, leaving
    every other user row and the whole movie table as they were. *)
Theorem admin_keeps_single_user db (draws : list nat) (uname password : string) :
  let db' := (admin draws uname password db).1 in
  movie_table db' = movie_table db /\
  size (user_table db') = Nat.max 1 (size (user_table db)) /\
  (forall id u k,
      User_query_first db = Some (id, u) -> k <> id ->
      user_table db' !! k = user_table db !! k).
Proof.
  cbv zeta. unfold admin, User_query_first.
  destruct (first_row (user_table db)) as [[id u]|] eqn:Hfirst;
    cbn [fst movie_table user_table].
  - split; [done|]. split.
    + pose proof (first_row_lookup _ _ _ Hfirst) as Hrow.
      rewrite map_size_insert_Some by by eexists.
      assert (size (user_table db) <> 0%nat)
        by (apply (map_size_ne_0_lookup_2 _ id); by eexists).
      lia.
    + intros id' u' k [= <- <-] Hne. by rewrite lookup_insert_ne.
  - split; [done|]. split; [|discriminate].
    apply first_row_None in Hfirst. rewrite Hfirst.
    by rewrite insert_empty, map_size_singleton, map_size_empty.
Qed.

(** X19.  After [initdb --drop] nobody is logged in and nobody can log in:
    every session is Anonymous, and a login submission with both fields
    filled in ends in a server error, until [admin] creates the user. *)
Theorem initdb_drop_locks_out req db s (uname password : string) :
  login_request req uname password ->
  uname <> "" -> password <> "" ->
  let db0 := (initdb true db).1 in
  Anonymous db0 s /\
  handle_request req db0 s = (error_response 500, db0, s).
Proof.
  intros Hreq Hu Hp. cbn. split.
  - unfold Anonymous, session_user, User_query_get. cbn [user_table].
    destruct (user_id s); [|done]. by rewrite lookup_empty.
  - by apply (login_without_user_row req _ s uname password).
Qed.
End Cli.

Section Credentials2.
Context `{PasswordHash}.

(** X20.  [set_password] replaces only the password hash, and the hash it
    stores always accepts the password it was made from: after
    [set_password(p)], [validate_password(p)] returns [True] and
    [validate_password] of any other text returns a boolean, never raises.
    No assumption on the key-derivation function is needed. *)
Theorem set_password_then_validate (u : User) (draws : list nat) (p q : string) :
  name (set_password draws u p) = name u /\
  username (set_password draws u p) = username u /\
  validate_password (set_password draws u p) p = Ok true /\
  exists b, validate_password (set_password draws u p) q = Ok b.
Proof.
  repeat split.
  - rewrite validate_password_set_password. by rewrite String.eqb_refl.
  - rewrite validate_password_set_password. by eexists.
Qed.
End Credentials2.

(** ** The added properties on concrete inputs *)

Lemma store_change_needs_authenticated_post_witness :
  method demo_create = POST /\ Authenticated demo_db demo_logged_in
  /\ writes_store (path demo_create).
Proof.
  apply (@store_change_needs_authenticated_post demo_hash demo_create demo_db
           demo_logged_in).
  intros Heq. apply (f_equal (fun d => movie_table d !! 6)) in Heq.
  vm_compute in Heq. discriminate.
Defined.

Lemma session_user_changes_by_login_logout_witness :
  path (demo_login "alice" "secret") = login_ep
  \/ path (demo_login "alice" "secret") = logout_ep.
Proof.
  apply (@session_user_changes_by_login_logout demo_hash
           (demo_login "alice" "secret") demo_db demo_anonymous).
  vm_compute. discriminate.
Defined.


Lemma logout_ends_session_witness :
  @handle_request demo_hash (mkRequest GET logout_ep ∅) demo_db demo_logged_in
  = (redirect (url_for index_ep), demo_db,
     mkSession None (flashes demo_logged_in ++ ["Goodbye"])) /\
  Anonymous demo_db
    (@handle_request demo_hash (mkRequest GET logout_ep ∅) demo_db demo_logged_in).2.
Proof.
  apply (@logout_ends_session demo_hash (mkRequest GET logout_ep ∅) demo_db
           demo_logged_in demo_logged_in_authenticated); reflexivity.
Defined.

Lemma login_establishes_session_witness :
  let '(resp, db', s') :=
    @handle_request demo_hash (demo_login "alice" "secret") demo_db demo_anonymous in
  resp = redirect (url_for index_ep) /\ db' = demo_db /\
  session_user db' s' = Some (1, demo_admin).
Proof.
  apply (@login_establishes_session demo_hash (demo_login "alice" "secret")
           demo_db demo_anonymous "alice" "secret" 1 demo_admin).
  - repeat split.
  - discriminate.
  - discriminate.
  - reflexivity.
  - reflexivity.
  - reflexivity.
Defined.

Lemma update_invalid_rejected_witness :
  @handle_request demo_hash
     (mkRequest POST (edit_ep 5) {[ "title" := ""; "year" := "1999" ]})
     demo_db demo_logged_in
  = (redirect (url_for (edit_ep 5)), demo_db, flashed demo_logged_in "Invalid input").
Proof.
  apply (@update_invalid_rejected demo_hash _ demo_db demo_logged_in 5
           (mkMovie (Some "Mahjong") (Some "1996")) "" "1999"
           demo_logged_in_authenticated).
  - reflexivity.
  - repeat split.
  - left. left. reflexivity.
Defined.

Lemma missing_field_bad_request_witness :
  @handle_request demo_hash (mkRequest POST (edit_ep 5) {[ "title" := "Mahjong" ]})
     demo_db demo_logged_in
  = (error_response 400, demo_db, demo_logged_in) /\
  @handle_request demo_hash (mkRequest POST settings_ep ∅) demo_db demo_logged_in
  = (error_response 400, demo_db, demo_logged_in) /\
  @handle_request demo_hash (mkRequest POST login_ep {[ "username" := "alice" ]})
     demo_db demo_anonymous
  = (error_response 400, demo_db, demo_anonymous).
Proof.
  split; [|split].
  - apply (proj1 (@missing_field_bad_request demo_hash
                    (mkRequest POST (edit_ep 5) {[ "title" := "Mahjong" ]})
                    demo_db demo_logged_in eq_refl)
                 5 (mkMovie (Some "Mahjong") (Some "1996")) eq_refl
                 demo_logged_in_authenticated eq_refl).
    right. reflexivity.
  - apply (proj1 (proj2 (@missing_field_bad_request demo_hash
                           (mkRequest POST settings_ep ∅)
                           demo_db demo_logged_in eq_refl))
                 eq_refl demo_logged_in_authenticated).
    reflexivity.
  - apply (proj2 (proj2 (@missing_field_bad_request demo_hash
                           (mkRequest POST login_ep {[ "username" := "alice" ]})
                           demo_db demo_anonymous eq_refl))
                 eq_refl).
    right. reflexivity.
Defined.

Lemma delete_then_not_found_witness :
  let '(_, db', s') := @handle_request demo_hash demo_delete demo_db demo_logged_in in
  size (movie_table db') = 1%nat /\
  @handle_request demo_hash demo_delete db' s'
  = (page 404 "404.html" (mkContext (User_query_first db') None None), db', s').
Proof.
  pose proof (@delete_then_not_found demo_hash demo_delete demo_db demo_logged_in 5
                (mkMovie (Some "Mahjong") (Some "1996"))
                demo_logged_in_authenticated eq_refl eq_refl
                (conj eq_refl eq_refl))
    as Hthen.
  destruct (@handle_request demo_hash demo_delete demo_db demo_logged_in)
    as [[resp db'] s'].
  destruct Hthen as [Hsize Hagain]. split.
  - exact Hsize.
  - apply Hagain. right. split; reflexivity.
Defined.

Lemma create_then_delete_restores_witness :
  let '(_, db1, s1) := @handle_request demo_hash demo_create demo_db demo_logged_in in
  (@handle_request demo_hash (mkRequest POST (delete_ep 6) ∅) db1 s1).1.2 = demo_db.
Proof.
  apply (@create_then_delete_restores demo_hash demo_create
           (mkRequest POST (delete_ep 6) ∅) demo_db demo_logged_in
           "Inception" "2010" demo_logged_in_authenticated).
  - repeat split.
  - apply demo_field_60; [discriminate|reflexivity].
  - apply demo_field_4; [discriminate|reflexivity].
  - split; reflexivity.
Defined.

Lemma create_twice_adds_two_witness :
  let '(_, db1, s1) := @handle_request demo_hash demo_create demo_db demo_logged_in in
  let db2 := (@handle_request demo_hash demo_create db1 s1).1.2 in
  let id := next_id (movie_table demo_db) in
  movie_table db2 !! id = Some (mkMovie (Some "Inception") (Some "2010")) /\
  movie_table db2 !! (id + 1) = Some (mkMovie (Some "Inception") (Some "2010")) /\
  size (movie_table db2) = S (S (size (movie_table demo_db))).
Proof.
  apply (@create_twice_adds_two demo_hash demo_create demo_create demo_db
           demo_logged_in "Inception" "2010" "Inception" "2010"
           demo_logged_in_authenticated).
  - repeat split.
  - apply demo_field_60; [discriminate|reflexivity].
  - apply demo_field_4; [discriminate|reflexivity].
  - repeat split.
  - apply demo_field_60; [discriminate|reflexivity].
  - apply demo_field_4; [discriminate|reflexivity].
Defined.

Lemma update_twice_last_wins_witness :
  let again := mkRequest POST (edit_ep 5) {[ "title" := "Yi Yi"; "year" := "2000" ]} in
  let '(_, db1, s1) := @handle_request demo_hash demo_update demo_db demo_logged_in in
  let db2 := (@handle_request demo_hash again db1 s1).1.2 in
  Movie_query_get db2 5 = Some (mkMovie (Some "Yi Yi") (Some "2000")) /\
  db2 = (@handle_request demo_hash again demo_db demo_logged_in).1.2.
Proof.
  apply (@update_twice_last_wins demo_hash demo_update
           (mkRequest POST (edit_ep 5) {[ "title" := "Yi Yi"; "year" := "2000" ]})
           demo_db demo_logged_in 5 (mkMovie (Some "Mahjong") (Some "1996"))
           "New Title" "1999" "Yi Yi" "2000" demo_logged_in_authenticated).
  - reflexivity.
  - repeat split.
  - apply demo_field_60; [discriminate|reflexivity].
  - apply demo_field_4; [discriminate|reflexivity].
  - repeat split.
  - apply demo_field_60; [discriminate|reflexivity].
  - apply demo_field_4; [discriminate|reflexivity].
Defined.

Lemma settings_keeps_login_witness :
  let '(_, db', s') := @handle_request demo_hash demo_settings demo_db demo_logged_in in
  exists u',
    session_user db' s' = Some (1, u') /\
    name u' = Some "Alice L." /\ credentials u' = credentials demo_admin.
Proof.
  apply (@settings_keeps_login demo_hash demo_settings demo_db demo_logged_in 1
           demo_admin "Alice L.").
  - reflexivity.
  - repeat split.
  - split; [discriminate|]. apply Nat.leb_le. reflexivity.
Defined.

Lemma index_lists_catalog_witness :
  @handle_request demo_hash (mkRequest GET index_ep ∅) demo_db demo_anonymous
  = (page 200 "index.html"
          (mkContext (User_query_first demo_db) (Some (movie_table demo_db)) None),
     demo_db, demo_anonymous).
Proof.
  apply (@index_lists_catalog demo_hash (mkRequest GET index_ep ∅) demo_db
           demo_anonymous); reflexivity.
Defined.

Lemma app5_forge_adds_fixtures_witness :
  let db' := (App5.forge demo5_db).1 in
  App5.movie_table db' !! 3 = Some (mkMovie (Some "Heat") (Some "1995")) /\
  App5.user_table db' !! 1 = Some (App5.mkUser (Some "Someone")) /\
  App5.movie_table db' !! (max_id (App5.movie_table demo5_db) + 1 + N.of_nat 3)
  = Some (mkMovie (Some "Leon") (Some "1994")).
Proof.
  destruct (app5_forge_adds_fixtures demo5_db)
    as (Hmovies & Husers & _ & _ & _ & Hnew).
  split; [|split].
  - apply Hmovies. reflexivity.
  - apply Husers. reflexivity.
  - apply Hnew. reflexivity.
Defined.

Lemma admin_then_login_witness :
  let db' := (@admin demo_hash [1; 2; 3]%nat "carol" "pw" (initdb true demo_db).1).1 in
  let '(resp, db'', s') :=
    @handle_request demo_hash (demo_login "carol" "pw") db' demo_anonymous in
  resp = redirect (url_for index_ep) /\ db'' = db' /\ Authenticated db' s'.
Proof.
  apply (@admin_then_login demo_hash (demo_login "carol" "pw")
           (initdb true demo_db).1 demo_anonymous [1; 2; 3]%nat "carol" "pw").
  - repeat split.
  - discriminate.
  - discriminate.
Defined.

Lemma admin_keeps_single_user_witness :
  let db' := (@admin demo_hash [1; 2; 3]%nat "carol" "pw" demo_two_users).1 in
  size (user_table db') = 2%nat /\
  user_table db' !! 2 = user_table demo_two_users !! 2.
Proof.
  destruct (@admin_keeps_single_user demo_hash demo_two_users [1; 2; 3]%nat
              "carol" "pw") as (_ & Hsize & Hother).
  split.
  - exact Hsize.
  - apply (Hother 1 demo_admin 2); [reflexivity|discriminate].
Defined.

Lemma initdb_drop_locks_out_witness :
  let db0 := (initdb true demo_db).1 in
  Anonymous db0 demo_logged_in /\
  @handle_request demo_hash (demo_login "alice" "secret") db0 demo_logged_in
  = (error_response 500, db0, demo_logged_in).
Proof.
  apply (@initdb_drop_locks_out demo_hash (demo_login "alice" "secret") demo_db
           demo_logged_in "alice" "secret").
  - repeat split.
  - discriminate.
  - discriminate.
Defined.
